(** * Inventory store: a shallow embedding of [inventory_system.py]

    The module keeps one global dictionary [stock_data : dict[str, int]] and
    offers [add_item], [remove_item], [get_qty], [load_data], [save_data] and
    [check_low_items] on it.  The embedding follows the source function by
    function: the global dictionary, the logger and the files live in an
    explicit [world]; a Python function becomes a computation in a small
    state-and-exception monad [M]. *)

From Stdlib Require Import ZArith NArith List Bool String Ascii Lia.
From Stdlib Require DecimalFacts DecimalPos DecimalZ.
Import ListNotations.

Set Implicit Arguments.
Local Open Scope Z_scope.

(** ** Python strings

    A Python [str] is a sequence of Unicode code points (lone surrogates
    included); a code point is kept as its number. *)

Definition char := N.
Definition str := list char.

(** A program literal (ASCII) as a [str]. *)
Definition lit (s : string) : str :=
  map N_of_ascii (list_ascii_of_string s).

Definition str_eq_dec : forall a b : str, {a = b} + {a <> b} :=
  list_eq_dec N.eq_dec.

(** [str.isspace] on one code point: the characters [str.strip()] removes. *)
Definition is_space (c : char) : bool :=
  ((9 <=? c) && (c <=? 13) || (28 <=? c) && (c <=? 32) ||
   (c =? 133) || (c =? 160) || (c =? 5760) ||
   (8192 <=? c) && (c <=? 8202) || (c =? 8232) || (c =? 8233) ||
   (c =? 8239) || (c =? 8287) || (c =? 12288))%N.

Fixpoint lstrip (s : str) : str :=
  match s with
  | [] => []
  | c :: r => if is_space c then lstrip r else s
  end.

Definition rstrip (s : str) : str := rev (lstrip (rev s)).

Definition strip (s : str) : str := lstrip (rstrip s).

(** Truth value of a [str]: the empty string is false. *)
Definition truthy (s : str) : bool :=
  match s with [] => false | _ :: _ => true end.

(** ** Python values, as far as the functions inspect their arguments *)

Inductive pyval : Type :=
| PyInt (n : Z)
| PyBool (b : bool)
| PyStr (s : str)
| PyFloat (bits : N)
| PyNone.

(** [isinstance(v, int)] together with the integer the value denotes in
    arithmetic and comparisons; [bool] is a subclass of [int]. *)
Definition as_int (v : pyval) : option Z :=
  match v with
  | PyInt n => Some n
  | PyBool b => Some (if b then 1 else 0)
  | _ => None
  end.

(** [isinstance(v, str)] together with the string. *)
Definition as_str (v : pyval) : option str :=
  match v with
  | PyStr s => Some s
  | _ => None
  end.

(** ** Dictionaries [dict[str, int]]

    A Python dictionary iterates in insertion order: assigning to a key that
    is present keeps its place, a new key goes to the end.  The entries are
    kept as an association list in that order. *)

Definition dict := list (str * Z).

Fixpoint dict_get (d : dict) (k : str) : option Z :=
  match d with
  | [] => None
  | (k', v) :: r => if str_eq_dec k k' then Some v else dict_get r k
  end.

(** [d[k] = v] *)
Fixpoint dict_set (d : dict) (k : str) (v : Z) : dict :=
  match d with
  | [] => [(k, v)]
  | (k', v') :: r =>
      if str_eq_dec k k' then (k', v) :: r else (k', v') :: dict_set r k v
  end.

(** [del d[k]]; [None] stands for the [KeyError] of an absent key. *)
Fixpoint dict_del (d : dict) (k : str) : option dict :=
  match d with
  | [] => None
  | (k', v') :: r =>
      if str_eq_dec k k' then Some r
      else match dict_del r k with
           | Some r' => Some ((k', v') :: r')
           | None => None
           end
  end.

Definition keys (d : dict) : list str := map fst d.

(** A list of entries is a dictionary when no key occurs twice. *)
Definition dict_ok (d : dict) : Prop := NoDup (keys d).

(** ** Exceptions, log records, the world *)

Inductive exn : Type :=
| ValueError (msg : string)
| KeyError (key : str)
| FileNotFoundError (path : str)
| UnicodeEncodeError
| JSONDecodeError.

(** What reaches the module's logger: one constructor per method called. *)
Inductive log_record : Type :=
| LogWarning (msg : string) (args : list pyval)
| LogInfo (msg : string) (args : list pyval)
| LogException (msg : string) (exc : exn).

(** The text of a file, as the UTF-8 text layer shows it (on reading,
    newline translation leaves the JSON whitespace JSON whitespace).  A file
    is named by its path string, and every path can be opened for writing. *)
Definition text := list char.

Record world : Type := mkWorld {
  stock_data : dict;
  logged : list log_record;
  files : list (str * text)
}.

Definition empty_world : world := mkWorld [] [] [].

Inductive outcome (A : Type) : Type :=
| Returned (a : A)
| Raised (e : exn).
Arguments Raised {A} e.

Definition M (A : Type) : Type := world -> outcome A * world.

Definition ret {A} (a : A) : M A := fun w => (Returned a, w).

Definition bind {A B} (m : M A) (f : A -> M B) : M B :=
  fun w => match m w with
           | (Returned a, w') => f a w'
           | (Raised e, w') => (Raised e, w')
           end.

Definition raise {A} (e : exn) : M A := fun w => (Raised e, w).

(** [try: body except (classes) as exc: handler]: [handles] tells which
    exceptions the clause catches. *)
Definition try_except {A} (body : M A) (handles : exn -> bool)
    (handler : exn -> M A) : M A :=
  fun w => match body w with
           | (Returned a, w') => (Returned a, w')
           | (Raised e, w') =>
               if handles e then handler e w' else (Raised e, w')
           end.

Notation "x <- m ;; k" := (bind m (fun x => k))
  (at level 61, m at next level, right associativity).
Notation "m ;;; k" := (bind m (fun _ => k))
  (at level 61, k at level 61, right associativity).

Definition get_stock : M dict := fun w => (Returned (stock_data w), w).

Definition put_stock (d : dict) : M unit :=
  fun w => (Returned tt, mkWorld d (logged w) (files w)).

Definition emit (r : log_record) : M unit :=
  fun w => (Returned tt, mkWorld (stock_data w) (logged w ++ [r]) (files w)).

(** ** Decimal text of an integer ([str(n)], [repr(n)])

    Python integers are unbounded; the interpreter's configurable limit on the
    number of digits of a conversion is not modelled. *)

Fixpoint uint_text (d : Decimal.uint) : text :=
  match d with
  | Decimal.Nil => []
  | Decimal.D0 r => 48%N :: uint_text r | Decimal.D1 r => 49%N :: uint_text r
  | Decimal.D2 r => 50%N :: uint_text r | Decimal.D3 r => 51%N :: uint_text r
  | Decimal.D4 r => 52%N :: uint_text r | Decimal.D5 r => 53%N :: uint_text r
  | Decimal.D6 r => 54%N :: uint_text r | Decimal.D7 r => 55%N :: uint_text r
  | Decimal.D8 r => 56%N :: uint_text r | Decimal.D9 r => 57%N :: uint_text r
  end.

Definition int_repr (n : Z) : text :=
  match Z.to_int n with
  | Decimal.Pos d => uint_text d
  | Decimal.Neg d => 45%N :: uint_text d
  end.

(** ** The operations of the store *)

(** [add_item(item, qty, logs)].  [now] is the text of
    [datetime.now().isoformat()] at the call.  The value returned is the list
    bound to [logs] when the call ends: the caller's list after the append, or
    the fresh local one. *)
Definition add_item (item qty : pyval) (logs : option (list str))
    (now : str) : M (list str) :=
  let logs := match logs with None => [] | Some l => l end in
  match as_str item with
  | None => emit (LogWarning "Invalid item name provided" []) ;;; ret logs
  | Some name =>
      if negb (truthy (strip name)) then
        emit (LogWarning "Invalid item name provided" []) ;;; ret logs
      else
        match as_int qty with
        | None =>
            emit (LogWarning "Quantity must be int, got %r" [qty]) ;;; ret logs
        | Some q =>
            d <- get_stock ;;
            put_stock
              (dict_set d name
                 (match dict_get d name with Some v => v | None => 0 end + q)) ;;;
            ret (logs ++
                 [now ++ lit ": Added " ++
                  match qty with
                  | PyBool b => lit (if b then "True" else "False")
                  | _ => int_repr q
                  end ++ lit " of " ++ name])
        end
  end.

Definition handles_KeyError_ValueError (e : exn) : bool :=
  match e with
  | KeyError _ | ValueError _ => true
  | _ => false
  end.

(** [remove_item(item, qty)]; [item] is a [str], as annotated. *)
Definition remove_item (item : str) (qty : pyval) : M unit :=
  try_except
    (match as_int qty with
     | None => raise (ValueError "qty must be a non-negative int")
     | Some q =>
         if q <? 0 then raise (ValueError "qty must be a non-negative int")
         else
           d <- get_stock ;;
           match dict_get d item with
           | None =>
               emit (LogInfo "Item %s not present; nothing to remove"
                       [PyStr item])
           | Some current =>
               let new_qty := current - q in
               if new_qty <=? 0 then
                 match dict_del d item with
                 | Some d' => put_stock d'
                 | None => raise (KeyError item)
                 end
               else put_stock (dict_set d item new_qty)
           end
     end)
    handles_KeyError_ValueError
    (fun exc => emit (LogException "Failed to remove item: %s" exc)).

(** [get_qty(item)]: [stock_data[item]]. *)
Definition get_qty (item : str) : M Z :=
  d <- get_stock ;;
  match dict_get d item with
  | Some v => ret v
  | None => raise (KeyError item)
  end.

(** The loop of [check_low_items]: one step per entry, in iteration order. *)
Definition low_step (threshold : Z) (result : list str) (e : str * Z)
    : list str :=
  let (name, qty) := e in
  if qty <? threshold then result ++ [name] else result.

Definition check_low_items (threshold : pyval) : M (list str) :=
  match as_int threshold with
  | None => raise (ValueError "threshold must be a non-negative int")
  | Some t =>
      if t <? 0 then raise (ValueError "threshold must be a non-negative int")
      else
        d <- get_stock ;;
        ret (fold_left (low_step t) d [])
  end.

(** ** JSON text of the store: [json.dump(stock_data, f, ensure_ascii=False, indent=2)] *)

Definition ch (a : ascii) : char := N_of_ascii a.
Definition QUOTE : char := 34%N.
Definition BACKSLASH : char := 92%N.
Definition NEWLINE : char := 10%N.

Definition hex_char (n : N) : char :=
  (if n <? 10 then 48 + n else 87 + n)%N.

(** The replacement of one character by [ESCAPE_DCT]: the quote, the
    backslash and the control characters below U+0020 are escaped, every
    other character is written as it is. *)
Definition escape_char (c : char) : text :=
  (if c =? QUOTE then [BACKSLASH; QUOTE]
   else if c =? BACKSLASH then [BACKSLASH; BACKSLASH]
   else if c =? 10 then [BACKSLASH; ch "n"]
   else if c =? 13 then [BACKSLASH; ch "r"]
   else if c =? 9 then [BACKSLASH; ch "t"]
   else if c =? 8 then [BACKSLASH; ch "b"]
   else if c =? 12 then [BACKSLASH; ch "f"]
   else if c <? 32 then
     [BACKSLASH; ch "u"; ch "0"; ch "0"; hex_char (c / 16); hex_char (c mod 16)]
   else [c])%N.

Definition encode_basestring (s : str) : text :=
  QUOTE :: flat_map escape_char s ++ [QUOTE].

Definition newline_indent : text := NEWLINE :: lit "  ".
Definition item_separator : text := lit "," ++ newline_indent.
Definition key_separator : text := lit ": ".

(** The chunks the encoder yields for the entries, in iteration order. *)
Fixpoint iterencode_items (first : bool) (items : dict) : list text :=
  match items with
  | [] => []
  | (key, value) :: r =>
      (if first then [] else [item_separator]) ++
      [encode_basestring key; key_separator; int_repr value] ++
      iterencode_items false r
  end.

Definition iterencode_dict (d : dict) : list text :=
  match d with
  | [] => [lit "{}"]
  | _ :: _ =>
      [lit "{"; newline_indent] ++ iterencode_items true d ++
      [[NEWLINE]; lit "}"]
  end.

(** UTF-8 encodes the scalar values: every code point but the surrogates. *)
Definition encodable (c : char) : bool :=
  ((c <? 55296) || (57343 <? c) && (c <=? 1114111))%N.

(** [fp.write(chunk)] for each chunk in turn; a chunk that UTF-8 cannot encode
    stops the writing.  The result is what the file holds, and whether every
    chunk went through. *)
Fixpoint write_chunks (chunks : list text) (written : text) : text * bool :=
  match chunks with
  | [] => (written, true)
  | c :: r =>
      if forallb encodable c then write_chunks r (written ++ c)
      else (written, false)
  end.

Fixpoint file_read (fs : list (str * text)) (path : str) : option text :=
  match fs with
  | [] => None
  | (p, t) :: r => if str_eq_dec path p then Some t else file_read r path
  end.

(** [save_data(path)]: the file is opened for writing (created or truncated)
    and closed on every exit. *)
Definition save_data (path : str) : M unit :=
  fun w =>
    let (written, ok) := write_chunks (iterencode_dict (stock_data w)) [] in
    let w' := mkWorld (stock_data w) (logged w) ((path, written) :: files w) in
    if ok then (Returned tt, w') else (Raised UnicodeEncodeError, w').

(** ** Reading the JSON text back: [json.load(f)]

    The decoder is followed on the persisted format, an object whose keys are
    strings and whose values are integers.  On any other text [json_loads]
    gives [None]: Python raises [JSONDecodeError] on a malformed text, and on
    well-formed JSON of another shape binds [stock_data] to a value that is
    not a [dict[str, int]]. *)

Definition is_ws (c : char) : bool :=
  ((c =? 32) || (c =? 9) || (c =? 10) || (c =? 13))%N.

Fixpoint skip_ws (s : text) : text :=
  match s with
  | [] => []
  | c :: r => if is_ws c then skip_ws r else s
  end.

Definition hex_val (c : char) : option N :=
  (if (48 <=? c) && (c <=? 57) then Some (c - 48)
   else if (97 <=? c) && (c <=? 102) then Some (c - 87)
   else if (65 <=? c) && (c <=? 70) then Some (c - 55)
   else None)%N.

Definition decode_uXXXX (h1 h2 h3 h4 : char) : option N :=
  match hex_val h1, hex_val h2, hex_val h3, hex_val h4 with
  | Some a, Some b, Some c, Some d => Some (((a * 16 + b) * 16 + c) * 16 + d)%N
  | _, _, _, _ => None
  end.

(** The table [BACKSLASH] of the one-letter escapes. *)
Definition unescape (e : char) : option char :=
  (if e =? QUOTE then Some QUOTE
   else if e =? BACKSLASH then Some BACKSLASH
   else if e =? ch "/" then Some (ch "/")
   else if e =? ch "b" then Some 8
   else if e =? ch "f" then Some 12
   else if e =? ch "n" then Some 10
   else if e =? ch "r" then Some 13
   else if e =? ch "t" then Some 9
   else None)%N.

Definition prepend (c : char) (r : option (str * text)) : option (str * text) :=
  match r with
  | Some (s, rest) => Some (c :: s, rest)
  | None => None
  end.

(** [scanstring(s, end)] in strict mode, from the character after the opening
    quote: the string and the text after its closing quote. *)
Fixpoint scanstring (s : text) : option (str * text) :=
  match s with
  | [] => None
  | c :: r =>
      if (c =? QUOTE)%N then Some ([], r)
      else if (c =? BACKSLASH)%N then
        match r with
        | [] => None
        | e :: r1 =>
            if (e =? ch "u")%N then
              match r1 with
              | h1 :: h2 :: h3 :: h4 :: r5 =>
                  match decode_uXXXX h1 h2 h3 h4 with
                  | None => None
                  | Some uni =>
                      if ((55296 <=? uni) && (uni <=? 56319))%N then
                        match r5 with
                        | b :: u :: g1 :: g2 :: g3 :: g4 :: r11 =>
                            if ((b =? BACKSLASH) && (u =? ch "u"))%N then
                              match decode_uXXXX g1 g2 g3 g4 with
                              | None => None
                              | Some uni2 =>
                                  if ((56320 <=? uni2) && (uni2 <=? 57343))%N
                                  then
                                    prepend
                                      (65536 + ((uni - 55296) * 1024
                                                + (uni2 - 56320)))%N
                                      (scanstring r11)
                                  else prepend uni (scanstring r5)
                              end
                            else prepend uni (scanstring r5)
                        | _ => prepend uni (scanstring r5)
                        end
                      else prepend uni (scanstring r5)
                  end
              | _ => None
              end
            else
              match unescape e with
              | Some c' => prepend c' (scanstring r1)
              | None => None
              end
        end
      else if (c <? 32)%N then None
      else prepend c (scanstring r)
  end.

Definition is_digit (c : char) : bool := ((48 <=? c) && (c <=? 57))%N.

Definition cons_digit (c : char) (d : Decimal.uint) : Decimal.uint :=
  (if c =? 48 then Decimal.D0 d else if c =? 49 then Decimal.D1 d
   else if c =? 50 then Decimal.D2 d else if c =? 51 then Decimal.D3 d
   else if c =? 52 then Decimal.D4 d else if c =? 53 then Decimal.D5 d
   else if c =? 54 then Decimal.D6 d else if c =? 55 then Decimal.D7 d
   else if c =? 56 then Decimal.D8 d else Decimal.D9 d)%N.

Fixpoint span_digits (s : text) : Decimal.uint * text :=
  match s with
  | [] => (Decimal.Nil, [])
  | c :: r =>
      if is_digit c then
        let (d, rest) := span_digits r in (cons_digit c d, rest)
      else (Decimal.Nil, s)
  end.

(** The integer part matched by [NUMBER_RE] (an optional minus sign, then
    either a single zero or a non-zero digit followed by digits) and its value
    [int(...)].  A fraction or an exponent after it is not consumed: the
    delimiter test that follows rejects it. *)
Definition scan_int (s : text) : option (Z * text) :=
  let (neg, s1) :=
    match s with
    | c :: r => if (c =? ch "-")%N then (true, r) else (false, s)
    | [] => (false, s)
    end in
  let sign d := if neg then Decimal.Neg d else Decimal.Pos d in
  match s1 with
  | [] => None
  | c :: r =>
      if (c =? ch "0")%N then Some (Z.of_int (sign (Decimal.D0 Decimal.Nil)), r)
      else if is_digit c then
        let (d, rest) := span_digits s1 in Some (Z.of_int (sign d), rest)
      else None
  end.

(** The loop of [JSONObject], entered after the opening quote of a key.  Each
    round consumes at least one character, so the length of the text bounds
    the number of rounds. *)
Fixpoint scan_members (fuel : nat) (s : text) : option (list (str * Z) * text) :=
  match fuel with
  | O => None
  | S fuel' =>
      match scanstring s with
      | None => None
      | Some (key, s1) =>
          match skip_ws s1 with
          | [] => None
          | c :: s2 =>
              if negb (c =? ch ":")%N then None
              else
                match scan_int (skip_ws s2) with
                | None => None
                | Some (value, s3) =>
                    match skip_ws s3 with
                    | [] => None
                    | nextchar :: s4 =>
                        if (nextchar =? ch "}")%N then Some ([(key, value)], s4)
                        else if negb (nextchar =? ch ",")%N then None
                        else
                          match skip_ws s4 with
                          | [] => None
                          | q :: s5 =>
                              if negb (q =? QUOTE)%N then None
                              else
                                match scan_members fuel' s5 with
                                | Some (pairs, rest) =>
                                    Some ((key, value) :: pairs, rest)
                                | None => None
                                end
                          end
                    end
                end
          end
      end
  end.

(** [dict(pairs)] *)
Definition dict_of_pairs (pairs : list (str * Z)) : dict :=
  fold_left (fun d (p : str * Z) => dict_set d (fst p) (snd p)) pairs [].

(** [JSONObject], from the character after the opening brace. *)
Definition JSONObject (s : text) : option (dict * text) :=
  match skip_ws s with
  | [] => None
  | c :: r =>
      if (c =? ch "}")%N then Some ([], r)
      else if negb (c =? QUOTE)%N then None
      else
        match scan_members (List.length r) r with
        | Some (pairs, rest) => Some (dict_of_pairs pairs, rest)
        | None => None
        end
  end.

(** [json.loads]: no byte order mark, one value, nothing but whitespace after
    it. *)
Definition json_loads (s : text) : option dict :=
  if match s with c :: _ => (c =? 65279)%N | [] => false end then None
  else
    match skip_ws s with
    | [] => None
    | c :: r =>
        if negb (c =? ch "{")%N then None
        else
          match JSONObject r with
          | Some (d, rest) =>
              match skip_ws rest with
              | [] => Some d
              | _ :: _ => None
              end
          | None => None
          end
    end.

(** [load_data(path)]: the file is read whole and [stock_data] rebound to the
    decoded object. *)
Definition load_data (path : str) : M unit :=
  fun w =>
    match file_read (files w) path with
    | None => (Raised (FileNotFoundError path), w)
    | Some t =>
        match json_loads t with
        | Some d => (Returned tt, mkWorld d (logged w) (files w))
        | None => (Raised JSONDecodeError, w)
        end
    end.

(** Running a computation. *)
Definition result_of {A} (r : outcome A * world) : outcome A := fst r.
Definition world_of {A} (r : outcome A * world) : world := snd r.

(** ** Predicates used to state the properties *)

(** The guard of [remove_item] and [check_low_items]: an instance of [int]
    that is not negative. *)
Definition is_nonneg_int (v : pyval) : bool :=
  match as_int v with
  | Some n => 0 <=? n
  | None => false
  end.

(** The quantity [stock_data.get(item, 0)]. *)
Definition qty_or_zero (d : dict) (item : str) : Z :=
  match dict_get d item with Some v => v | None => 0 end.

(** One call of [add_item] with its arguments. *)
Record add_call : Type := mkAdd {
  call_item : str;
  call_qty : pyval;
  call_logs : option (list str);
  call_now : str
}.

Definition valid_add (c : add_call) : Prop :=
  truthy (strip (call_item c)) = true /\ as_int (call_qty c) <> None.

Definition run_add (w : world) (c : add_call) : world :=
  world_of (add_item (PyStr (call_item c)) (call_qty c) (call_logs c)
              (call_now c) w).

(** The calls one after the other. *)
Definition run_adds (cs : list add_call) (w : world) : world :=
  fold_left run_add cs w.

(** The sum of the quantities the calls add to [item]. *)
Fixpoint added_to (item : str) (cs : list add_call) : Z :=
  match cs with
  | [] => 0
  | c :: r =>
      (if str_eq_dec item (call_item c)
       then match as_int (call_qty c) with Some q => q | None => 0 end
       else 0) + added_to item r
  end.

(** The entries below a threshold, in the order of the dictionary. *)
Definition low_entries (t : Z) (d : dict) : list str :=
  map fst (filter (fun e : str * Z => snd e <? t) d).

(** A key as the data model words it: non-empty and equal to its trimmed
    form. *)
Definition trimmed_key (k : str) : Prop := k <> [] /\ strip k = k.

(** A key as [add_item] checks it: something is left after trimming. *)
Definition nonblank_key (k : str) : Prop := truthy (strip k) = true.

Definition keys_trimmed (w : world) : Prop :=
  Forall trimmed_key (keys (stock_data w)).

Definition keys_nonblank (w : world) : Prop :=
  Forall nonblank_key (keys (stock_data w)).

(** A key UTF-8 can encode. *)
Definition encodable_key (k : str) : Prop := forallb encodable k = true.

(** The whole text [json.dump] produces for a dictionary. *)
Definition json_text (d : dict) : text := List.concat (iterencode_dict d).

(** What follows the opening quote of a member: the escaped key, the closing
    quote, the separator, the value, and then [tail]. *)
Definition after_quote (k : str) (v : Z) (tail : text) : text :=
  flat_map escape_char k ++ QUOTE :: key_separator ++ int_repr v ++ tail.

(** Every key of the entries can be encoded. *)
Definition keys_encodable (d : dict) : bool :=
  forallb (fun e : str * Z => forallb encodable (fst e)) d.

(** A text that does not go on with a digit. *)
Definition no_digit_head (s : text) : Prop :=
  match s with
  | [] => True
  | c :: _ => is_digit c = false
  end.

(** ** Standard output, [print_data] and [main]

    The process adds the text written to [sys.stdout] to the world.  Which
    characters the stream's encoding takes depends on the environment, and the
    [repr] of a string on the Unicode database: both are parameters. *)

Section Console.

(** The characters the encoding of [sys.stdout] can encode. *)
Variable stdout_ok : char -> bool.

(** [repr(s)] of a string. *)
Variable repr_str : str -> text.

Record process : Type := mkProcess {
  proc_world : world;
  proc_out : text
}.

Definition P (A : Type) : Type := process -> outcome A * process.

Definition pret {A} (a : A) : P A := fun p => (Returned a, p).

Definition pbind {A B} (m : P A) (f : A -> P B) : P B :=
  fun p => match m p with
           | (Returned a, p') => f a p'
           | (Raised e, p') => (Raised e, p')
           end.

(** A store operation run inside the process. *)
Definition lift {A} (m : M A) : P A :=
  fun p => let (r, w') := m (proc_world p) in (r, mkProcess w' (proc_out p)).

Definition ptry {A} (body : P A) (handles : exn -> bool)
    (handler : exn -> P A) : P A :=
  fun p => match body p with
           | (Returned a, p') => (Returned a, p')
           | (Raised e, p') =>
               if handles e then handler e p' else (Raised e, p')
           end.

(** [sys.stdout.write(t)]: the text is encoded at once, or nothing of it is
    written. *)
Definition stdout_write (t : text) : P unit :=
  fun p =>
    if forallb stdout_ok t
    then (Returned tt, mkProcess (proc_world p) (proc_out p ++ t))
    else (Raised UnicodeEncodeError, p).

(** [print] of its positional arguments, given as their [str()] texts: one write per
    argument, a space written before every argument but the first, and the
    newline last. *)
Fixpoint print_args (first : bool) (args : list text) : P unit :=
  match args with
  | [] => stdout_write [NEWLINE]
  | a :: r =>
      pbind (if first then pret tt else stdout_write (lit " ")) (fun _ =>
      pbind (stdout_write a) (fun _ =>
      print_args false r))
  end.

Definition print (args : list text) : P unit := print_args true args.

(** The loop of [print_data] over [stock_data.items()]. *)
Fixpoint print_items (items : dict) : P unit :=
  match items with
  | [] => pret tt
  | (name, qty) :: r =>
      pbind (print [name; lit "->"; int_repr qty]) (fun _ => print_items r)
  end.

Definition print_data : P unit :=
  pbind (print [lit "Items Report"]) (fun _ =>
  pbind (lift get_stock) (fun d =>
  print_items d)).

(** [str(l)] of a list of strings. *)
Fixpoint join_reprs (l : list str) : text :=
  match l with
  | [] => []
  | [s] => repr_str s
  | s :: r => repr_str s ++ lit ", " ++ join_reprs r
  end.

Definition str_of_list (l : list str) : text :=
  lit "[" ++ join_reprs l ++ lit "]".

Definition handles_KeyError (e : exn) : bool :=
  match e with
  | KeyError _ => true
  | _ => false
  end.

(** [main()]; [now1], [now2], [now3] are the readings of the clock in the
    three calls of [add_item]. *)
Definition main (now1 now2 now3 : str) : P unit :=
  pbind (lift (add_item (PyStr (lit "apple")) (PyInt 10) None now1)) (fun _ =>
  pbind (lift (add_item (PyStr (lit "banana")) (PyInt (-2)) None now2)) (fun _ =>
  pbind (lift (add_item (PyStr (lit "not-a-name")) (PyInt 0) None now3)) (fun _ =>
  pbind (lift (remove_item (lit "apple") (PyInt 3))) (fun _ =>
  pbind (lift (remove_item (lit "orange") (PyInt 1))) (fun _ =>
  pbind (ptry
           (pbind (lift (get_qty (lit "apple"))) (fun q =>
            print [lit "Apple stock:"; int_repr q]))
           handles_KeyError
           (fun _ => print [lit "Apple not in stock"])) (fun _ =>
  pbind (lift (check_low_items (PyInt 5))) (fun low =>
  pbind (print [lit "Low items:"; str_of_list low]) (fun _ =>
  pbind (lift (save_data (lit "inventory.json"))) (fun _ =>
  pbind (lift (load_data (lit "inventory.json"))) (fun _ =>
  print_data)))))))))).

(** The line [print_data] writes for one entry. *)
Definition report_line (e : str * Z) : text :=
  fst e ++ lit " -> " ++ int_repr (snd e) ++ [NEWLINE].

(** A text [sys.stdout] takes. *)
Definition printable (t : text) : Prop := forallb stdout_ok t = true.

End Console.

(** ** More predicates *)

(** [add_item] accepts the name: a [str] that is not blank. *)
Definition valid_name (item : pyval) : bool :=
  match as_str item with
  | Some name => truthy (strip name)
  | None => false
  end.

(** The list bound to [logs] at the start of [add_item]. *)
Definition logs_or_new (logs : option (list str)) : list str :=
  match logs with None => [] | Some l => l end.

(** The dictionary after [remove_item(item, q)] for a non-negative [q]. *)
Definition removed (d : dict) (item : str) (q : Z) : dict :=
  match dict_get d item with
  | None => d
  | Some current =>
      if current - q <=? 0
      then match dict_del d item with Some d' => d' | None => d end
      else dict_set d item (current - q)
  end.

(** The dictionary after an accepted [add_item(name, q)]. *)
Definition added (d : dict) (name : str) (q : Z) : dict :=
  dict_set d name (qty_or_zero d name + q).

(** The dictionary after the five calls that open [main]. *)
Definition main_store (d : dict) : dict :=
  removed
    (removed
       (added (added (added d (lit "apple") 10) (lit "banana") (-2))
          (lit "not-a-name") 0)
       (lit "apple") 3)
    (lit "orange") 1.

(** One call of an operation of the store, with its arguments. *)
Inductive op : Type :=
| OpAdd (item qty : pyval) (logs : option (list str)) (now : str)
| OpRemove (item : str) (qty : pyval)
| OpGet (item : str)
| OpLow (threshold : pyval)
| OpLoad (path : str)
| OpSave (path : str).

(** The world after the call, whether it returned or raised. *)
Definition run_op (w : world) (o : op) : world :=
  match o with
  | OpAdd item qty logs now => world_of (add_item item qty logs now w)
  | OpRemove item qty => world_of (remove_item item qty w)
  | OpGet item => world_of (get_qty item w)
  | OpLow threshold => world_of (check_low_items threshold w)
  | OpLoad path => world_of (load_data path w)
  | OpSave path => world_of (save_data path w)
  end.

Definition run_ops (os : list op) (w : world) : world := fold_left run_op os w.

(** The text one [print] writes before the newline: the arguments with a
    space between them. *)
Fixpoint joined (first : bool) (args : list text) : text :=
  match args with
  | [] => []
  | a :: r => (if first then [] else lit " ") ++ a ++ joined false r
  end.

(** A computation that only writes to standard output: the world stays, the
    output grows at its end, and the only exception is the encoding error of
    a write. *)
Definition only_writes {A : Type} (m : P A) : Prop :=
  forall p,
    proc_world (snd (m p)) = proc_world p /\
    (exists t, proc_out (snd (m p)) = proc_out p ++ t) /\
    (forall e, fst (m p) = Raised e -> e = UnicodeEncodeError).

(** * Properties *)

Unset Implicit Arguments.

(** ** Dictionaries *)

Section Dict.

Variable k : str.

Lemma dict_get_set_same (d : dict) (v : Z) :
  dict_get (dict_set d k v) k = Some v.
Proof.
  induction d as [|[k' v'] r IH]; simpl.
  - destruct (str_eq_dec k k); congruence.
  - destruct (str_eq_dec k k') as [E|E]; simpl.
    + destruct (str_eq_dec k k'); congruence.
    + destruct (str_eq_dec k k'); congruence.
Qed.

Lemma dict_get_set_other (d : dict) (v : Z) (k2 : str) :
  k2 <> k -> dict_get (dict_set d k v) k2 = dict_get d k2.
Proof.
  intros N. induction d as [|[k' v'] r IH]; simpl.
  - destruct (str_eq_dec k2 k); congruence.
  - destruct (str_eq_dec k k') as [E|E]; simpl.
    + subst k'. destruct (str_eq_dec k2 k); congruence.
    + destruct (str_eq_dec k2 k'); congruence.
Qed.

Lemma dict_get_None (d : dict) : dict_get d k = None <-> ~ In k (keys d).
Proof.
  induction d as [|[k' v'] r IH]; simpl.
  - tauto.
  - destruct (str_eq_dec k k') as [E|E].
    + split; [discriminate | intros H; elim H; left; congruence].
    + rewrite IH. split; intros H; [intros [F|F]; congruence | tauto].
Qed.

Lemma dict_del_present (d : dict) (v : Z) :
  dict_get d k = Some v -> exists d', dict_del d k = Some d'.
Proof.
  induction d as [|[k' v'] r IH]; simpl; [discriminate|].
  destruct (str_eq_dec k k') as [E|E]; intros H.
  - eauto.
  - destruct (IH H) as [r' ->]. eauto.
Qed.

Lemma keys_del (d d' : dict) (k2 : str) :
  dict_del d k = Some d' -> In k2 (keys d') -> In k2 (keys d).
Proof.
  revert d'. induction d as [|[k' v'] r IH]; simpl; [discriminate|].
  intros d'. destruct (str_eq_dec k k') as [E|E].
  - intros [= <-]; auto.
  - destruct (dict_del r k) as [r'|]; [|discriminate].
    intros [= <-]; simpl. intros [F|F]; eauto.
Qed.

Lemma dict_get_del_same (d d' : dict) :
  dict_ok d -> dict_del d k = Some d' -> dict_get d' k = None.
Proof.
  unfold dict_ok. revert d'.
  induction d as [|[k' v'] r IH]; simpl; [discriminate|].
  intros d' ND. inversion ND as [|? ? NI ND']; subst.
  destruct (str_eq_dec k k') as [E|E].
  - intros [= <-]. subst k'. now apply dict_get_None.
  - destruct (dict_del r k) as [r'|] eqn:D; [|discriminate].
    intros [= <-]; simpl.
    destruct (str_eq_dec k k'); [congruence | auto].
Qed.

Lemma dict_get_del_other (d d' : dict) (k2 : str) :
  dict_del d k = Some d' -> k2 <> k -> dict_get d' k2 = dict_get d k2.
Proof.
  revert d'. induction d as [|[k' v'] r IH]; simpl; [discriminate|].
  intros d'. destruct (str_eq_dec k k') as [E|E].
  - intros [= <-] N. destruct (str_eq_dec k2 k'); congruence.
  - destruct (dict_del r k) as [r'|]; [|discriminate].
    intros [= <-] N; simpl.
    destruct (str_eq_dec k2 k'); auto.
Qed.

Lemma keys_set (d : dict) (v : Z) :
  keys (dict_set d k v) =
  match dict_get d k with Some _ => keys d | None => keys d ++ [k] end.
Proof.
  induction d as [|[k' v'] r IH]; simpl; [reflexivity|].
  destruct (str_eq_dec k k') as [E|E]; simpl; [reflexivity|].
  rewrite IH. now destruct (dict_get r k).
Qed.

Lemma dict_ok_set (d : dict) (v : Z) : dict_ok d -> dict_ok (dict_set d k v).
Proof.
  unfold dict_ok. rewrite keys_set.
  destruct (dict_get d k) eqn:G; [auto|].
  intros ND. apply dict_get_None in G.
  apply NoDup_rev in ND. rewrite <- (rev_involutive (keys d ++ [k])).
  apply NoDup_rev. rewrite rev_app_distr; simpl.
  constructor; [rewrite <- in_rev; exact G | exact ND].
Qed.

Lemma dict_ok_del (d d' : dict) :
  dict_ok d -> dict_del d k = Some d' -> dict_ok d'.
Proof.
  unfold dict_ok. revert d'.
  induction d as [|[k' v'] r IH]; simpl; [discriminate|].
  intros d' ND. inversion ND as [|? ? NI ND']; subst.
  destruct (str_eq_dec k k') as [E|E].
  - now intros [= <-].
  - destruct (dict_del r k) as [r'|] eqn:D; [|discriminate].
    intros [= <-]; simpl. constructor; [|auto].
    intros F. apply NI. eapply keys_del; eauto.
Qed.

End Dict.

Lemma dict_set_absent (d : dict) (k : str) (v : Z) :
  dict_get d k = None -> dict_set d k v = d ++ [(k, v)].
Proof.
  induction d as [|[k' v'] r IH]; simpl; [reflexivity|].
  destruct (str_eq_dec k k'); [discriminate|].
  intros H. now rewrite IH.
Qed.

Lemma dict_del_last (d : dict) (k : str) (v : Z) :
  dict_get d k = None -> dict_del (d ++ [(k, v)]) k = Some d.
Proof.
  induction d as [|[k' v'] r IH]; simpl.
  - intros _. destruct (str_eq_dec k k); [reflexivity | congruence].
  - destruct (str_eq_dec k k'); [discriminate|].
    intros H. now rewrite IH.
Qed.

(** ** Running the operations *)

Ltac run :=
  unfold result_of, world_of, try_except, bind, ret, raise, get_stock,
    put_stock, emit; simpl.

Lemma add_item_valid (w : world) (name : str) (qty : pyval) (q : Z)
    (logs : option (list str)) (now : str) :
  truthy (strip name) = true ->
  as_int qty = Some q ->
  exists l,
    add_item (PyStr name) qty logs now w =
    (Returned l,
     mkWorld (dict_set (stock_data w) name (qty_or_zero (stock_data w) name + q))
       (logged w) (files w)).
Proof.
  intros Hn Hq. unfold add_item, as_str.
  rewrite Hn, Hq. run. eauto.
Qed.

Lemma run_add_stock (w : world) (c : add_call) (q : Z) :
  truthy (strip (call_item c)) = true ->
  as_int (call_qty c) = Some q ->
  stock_data (run_add w c) =
  dict_set (stock_data w) (call_item c)
    (qty_or_zero (stock_data w) (call_item c) + q).
Proof.
  intros Hn Hq. unfold run_add.
  destruct (add_item_valid w (call_item c) (call_qty c) q (call_logs c)
              (call_now c) Hn Hq) as [l ->].
  reflexivity.
Qed.

Lemma run_adds_get (cs : list add_call) :
  forall (w : world) (item : str),
    Forall valid_add cs ->
    In item (map call_item cs) \/ dict_get (stock_data w) item <> None ->
    dict_get (stock_data (run_adds cs w)) item =
    Some (qty_or_zero (stock_data w) item + added_to item cs).
Proof.
  induction cs as [|c r IH]; intros w item V P; simpl.
  - destruct P as [[]|P]. unfold qty_or_zero.
    destruct (dict_get (stock_data w) item); [f_equal; lia | congruence].
  - inversion V as [|? ? [Hn Hq] V']; subst.
    destruct (as_int (call_qty c)) as [q|] eqn:Eq; [|congruence].
    pose proof (run_add_stock w c q Hn Eq) as S.
    unfold run_adds in *. simpl. rewrite IH; auto.
    + f_equal. unfold qty_or_zero at 1. rewrite S.
      destruct (str_eq_dec item (call_item c)) as [E|E].
      * subst item. rewrite dict_get_set_same. lia.
      * rewrite dict_get_set_other by exact E.
        fold (qty_or_zero (stock_data w) item). lia.
    + rewrite S. destruct (str_eq_dec item (call_item c)) as [E|E].
      * right. subst item. rewrite dict_get_set_same. discriminate.
      * rewrite dict_get_set_other by exact E.
        destruct P as [[F|F]|P]; [congruence | now left | now right].
Qed.

(** C1.  After any sequence of valid calls of [add_item] (a name that is not
    blank after trimming, a quantity that is an [int]) among which at least
    one adds to [item], [get_qty(item)] returns the quantity [item] had before
    (zero when it was absent) plus the sum of the quantities added to it; a
    single call thus sets the entry to its previous quantity plus [qty], and
    creates it at [qty] when it was absent. *)
Theorem add_get_cumulative (w : world) (item : str) (cs : list add_call) :
  Forall valid_add cs ->
  In item (map call_item cs) ->
  get_qty item (run_adds cs w) =
  (Returned (qty_or_zero (stock_data w) item + added_to item cs),
   run_adds cs w).
Proof.
  intros V P. unfold get_qty. run.
  rewrite (run_adds_get cs w item V (or_introl P)). reflexivity.
Qed.

Lemma add_get_cumulative_witness :
  get_qty (lit "apple")
    (run_adds [mkAdd (lit "apple") (PyInt 10) None (lit "t0");
               mkAdd (lit "pear") (PyInt 4) None (lit "t1");
               mkAdd (lit "apple") (PyInt (-3)) (Some []) (lit "t2");
               mkAdd (lit "apple") (PyBool true) None (lit "t3")]
       (mkWorld [(lit "apple", 5)] [] [])) =
  (Returned 13,
   mkWorld [(lit "apple", 13); (lit "pear", 4)] [] []).
Proof.
  apply (add_get_cumulative (mkWorld [(lit "apple", 5)] [] []) (lit "apple")
           ([mkAdd (lit "apple") (PyInt 10) None (lit "t0");
                   mkAdd (lit "pear") (PyInt 4) None (lit "t1");
                   mkAdd (lit "apple") (PyInt (-3)) (Some []) (lit "t2");
                   mkAdd (lit "apple") (PyBool true) None (lit "t3")])).
  - repeat constructor; simpl; discriminate.
  - simpl. auto.
Defined.

(** ** [remove_item] *)

Lemma remove_item_run (w : world) (item : str) (qty : pyval) (q current : Z) :
  dict_get (stock_data w) item = Some current ->
  as_int qty = Some q ->
  0 <= q ->
  remove_item item qty w =
  (Returned tt,
   mkWorld
     (if current - q <=? 0
      then match dict_del (stock_data w) item with
           | Some d' => d'
           | None => stock_data w
           end
      else dict_set (stock_data w) item (current - q))
     (logged w) (files w)).
Proof.
  intros G Hq Hpos. unfold remove_item. rewrite Hq.
  assert ((q <? 0) = false) as -> by now apply Z.ltb_ge.
  run. rewrite G.
  destruct (current - q <=? 0).
  - destruct (dict_del_present _ _ _ G) as [d' ->]. reflexivity.
  - reflexivity.
Qed.

(** C2.  When [item] is present with quantity [current] and [qty] is a
    non-negative [int], [remove_item(item, qty)] returns normally; if
    [current - qty <= 0] the entry is deleted and [get_qty(item)] then raises
    [KeyError], otherwise the entry is updated to [current - qty]; no other
    entry changes.  In particular, where "apple" is absent,
    [add_item("apple", 10)], [remove_item("apple", 10)] and then
    [get_qty("apple")] ends in [KeyError]. *)
Theorem remove_item_present (w : world) (item : str) (qty : pyval)
    (q current : Z) :
  dict_ok (stock_data w) ->
  dict_get (stock_data w) item = Some current ->
  as_int qty = Some q ->
  0 <= q ->
  let r := remove_item item qty w in
  result_of r = Returned tt /\
  (if current - q <=? 0
   then dict_del (stock_data w) item = Some (stock_data (world_of r)) /\
        result_of (get_qty item (world_of r)) = Raised (KeyError item)
   else stock_data (world_of r) = dict_set (stock_data w) item (current - q) /\
        result_of (get_qty item (world_of r)) = Returned (current - q)) /\
  (forall k, k <> item ->
     dict_get (stock_data (world_of r)) k = dict_get (stock_data w) k) /\
  (forall (w0 : world) (logs : option (list str)) (now : str),
     dict_get (stock_data w0) (lit "apple") = None ->
     result_of
       ((add_item (PyStr (lit "apple")) (PyInt 10) logs now ;;;
         remove_item (lit "apple") (PyInt 10) ;;;
         get_qty (lit "apple")) w0) = Raised (KeyError (lit "apple"))).
Proof.
  intros OK G Hq Hpos r. subst r.
  rewrite (remove_item_run w item qty q current G Hq Hpos).
  destruct (dict_del_present _ _ _ G) as [d' D].
  repeat split.
  - unfold world_of; simpl. destruct (current - q <=? 0).
    + rewrite D. split; [reflexivity|].
      unfold get_qty. run. now rewrite (dict_get_del_same _ _ _ OK D).
    + split; [reflexivity|].
      unfold get_qty. run. now rewrite dict_get_set_same.
  - intros k N. unfold world_of; simpl. destruct (current - q <=? 0).
    + rewrite D. now apply dict_get_del_other with (k := item) (d := stock_data w).
    + now apply dict_get_set_other.
  - intros w0 logs now A.
    destruct (add_item_valid w0 (lit "apple") (PyInt 10) 10 logs now
                eq_refl eq_refl) as [l E].
    unfold bind at 1. rewrite E.
    unfold qty_or_zero. rewrite A. rewrite (dict_set_absent _ _ _ A).
    unfold bind at 1.
    rewrite (remove_item_run _ (lit "apple") (PyInt 10) 10 10);
      [| simpl; rewrite <- (dict_set_absent _ _ _ A); apply dict_get_set_same
       | reflexivity | lia].
    simpl stock_data. rewrite (dict_del_last _ _ _ A).
    unfold get_qty. run. now rewrite A.
Qed.

Lemma remove_item_present_witness :
  let w := mkWorld [(lit "apple", 10); (lit "pear", 4)] [] [] in
  let r := remove_item (lit "apple") (PyInt 10) w in
  result_of r = Returned tt /\
  (dict_del (stock_data w) (lit "apple") = Some (stock_data (world_of r)) /\
   result_of (get_qty (lit "apple") (world_of r)) =
   Raised (KeyError (lit "apple"))) /\
  (forall k, k <> lit "apple" ->
     dict_get (stock_data (world_of r)) k = dict_get (stock_data w) k) /\
  (forall (w0 : world) (logs : option (list str)) (now : str),
     dict_get (stock_data w0) (lit "apple") = None ->
     result_of
       ((add_item (PyStr (lit "apple")) (PyInt 10) logs now ;;;
         remove_item (lit "apple") (PyInt 10) ;;;
         get_qty (lit "apple")) w0) = Raised (KeyError (lit "apple"))).
Proof.
  intros w.
  assert (OK : dict_ok (stock_data w)).
  { repeat constructor; simpl; intuition discriminate. }
  exact (remove_item_present w (lit "apple") (PyInt 10) 10 10
           OK eq_refl eq_refl ltac:(lia)).
Defined.

(** C10.  When the stored quantity of [item] is zero or negative,
    [remove_item(item, 0)] deletes the entry although nothing was to be
    removed: the call returns normally and [item] is no longer a key. *)
Theorem remove_zero_deletes_nonpositive (w : world) (item : str) (current : Z) :
  dict_ok (stock_data w) ->
  dict_get (stock_data w) item = Some current ->
  current <= 0 ->
  let r := remove_item item (PyInt 0) w in
  result_of r = Returned tt /\
  dict_del (stock_data w) item = Some (stock_data (world_of r)) /\
  ~ In item (keys (stock_data (world_of r))) /\
  result_of (get_qty item (world_of r)) = Raised (KeyError item).
Proof.
  intros OK G Hc r. subst r.
  rewrite (remove_item_run w item (PyInt 0) 0 current G eq_refl (Z.le_refl 0)).
  assert ((current - 0 <=? 0) = true) as -> by (apply Z.leb_le; lia).
  destruct (dict_del_present _ _ _ G) as [d' D]. rewrite D.
  unfold world_of, result_of; simpl.
  pose proof (dict_get_del_same _ _ _ OK D) as A.
  repeat split.
  - now apply dict_get_None.
  - unfold get_qty. run. now rewrite A.
Qed.

(** The negative quantity is reached through [add_item], which takes any
    [int]: the world is the one after [add_item("banana", -2)]. *)
Lemma remove_zero_deletes_nonpositive_witness :
  let w := world_of (add_item (PyStr (lit "banana")) (PyInt (-2)) None
                       (lit "t") empty_world) in
  let r := remove_item (lit "banana") (PyInt 0) w in
  result_of r = Returned tt /\
  dict_del (stock_data w) (lit "banana") = Some (stock_data (world_of r)) /\
  ~ In (lit "banana") (keys (stock_data (world_of r))) /\
  result_of (get_qty (lit "banana") (world_of r)) =
  Raised (KeyError (lit "banana")).
Proof.
  intros w.
  assert (OK : dict_ok (stock_data w)).
  { repeat constructor; simpl; intuition. }
  exact (remove_zero_deletes_nonpositive w (lit "banana") (-2)
           OK eq_refl ltac:(lia)).
Defined.

(** C7.  When [qty] is not a non-negative [int], [remove_item(item, qty)]
    raises [ValueError] inside its [try]; the handler catches it and logs it
    with [logger.exception]; the call returns normally and the dictionary and
    the files are as before. *)
Theorem remove_item_invalid_qty (w : world) (item : str) (qty : pyval) :
  is_nonneg_int qty = false ->
  remove_item item qty w =
  (Returned tt,
   mkWorld (stock_data w)
     (logged w ++
      [LogException "Failed to remove item: %s"
         (ValueError "qty must be a non-negative int")])
     (files w)).
Proof.
  unfold is_nonneg_int, remove_item. intros H.
  destruct (as_int qty) as [q|].
  - assert ((q <? 0) = true) as ->.
    { apply Z.ltb_lt. apply Z.leb_gt in H. exact H. }
    reflexivity.
  - reflexivity.
Qed.

Lemma remove_item_invalid_qty_witness :
  let w := mkWorld [(lit "apple", 10)] [] [] in
  remove_item (lit "apple") (PyInt (-1)) w =
  (Returned tt,
   mkWorld [(lit "apple", 10)]
     [LogException "Failed to remove item: %s"
        (ValueError "qty must be a non-negative int")] []) /\
  stock_data (world_of (remove_item (lit "apple") (PyStr (lit "3")) w)) =
  [(lit "apple", 10)].
Proof.
  intros w. split.
  - exact (remove_item_invalid_qty w (lit "apple") (PyInt (-1)) eq_refl).
  - rewrite (remove_item_invalid_qty w (lit "apple") (PyStr (lit "3")) eq_refl).
    reflexivity.
Defined.

(** C8.  When [item] is absent and [qty] is a non-negative [int],
    [remove_item(item, qty)] returns normally, logs one informational record
    and leaves the dictionary and the files as they were. *)
Theorem remove_item_absent (w : world) (item : str) (qty : pyval) :
  dict_get (stock_data w) item = None ->
  is_nonneg_int qty = true ->
  remove_item item qty w =
  (Returned tt,
   mkWorld (stock_data w)
     (logged w ++
      [LogInfo "Item %s not present; nothing to remove" [PyStr item]])
     (files w)).
Proof.
  unfold is_nonneg_int, remove_item. intros A H.
  destruct (as_int qty) as [q|]; [|discriminate].
  assert ((q <? 0) = false) as ->.
  { apply Z.ltb_ge. now apply Z.leb_le. }
  run. rewrite A. reflexivity.
Qed.

Lemma remove_item_absent_witness :
  remove_item (lit "orange") (PyInt 1) (mkWorld [(lit "apple", 7)] [] []) =
  (Returned tt,
   mkWorld [(lit "apple", 7)]
     [LogInfo "Item %s not present; nothing to remove" [PyStr (lit "orange")]]
     []).
Proof.
  exact (remove_item_absent (mkWorld [(lit "apple", 7)] [] []) (lit "orange")
           (PyInt 1) eq_refl eq_refl).
Defined.

(** ** [get_qty] *)

(** C5.  [get_qty(item)] raises [KeyError] exactly when [item] is not a key of
    the dictionary, and returns the stored quantity otherwise; the exception
    leaves the function (no handler, no default) and the world is not
    changed. *)
Theorem get_qty_spec (w : world) (item : str) :
  world_of (get_qty item w) = w /\
  (result_of (get_qty item w) = Raised (KeyError item) <->
   ~ In item (keys (stock_data w))) /\
  ((exists e, result_of (get_qty item w) = Raised e) <->
   ~ In item (keys (stock_data w))) /\
  match dict_get (stock_data w) item with
  | Some v => result_of (get_qty item w) = Returned v
  | None => result_of (get_qty item w) = Raised (KeyError item)
  end.
Proof.
  unfold get_qty. run. rewrite <- dict_get_None.
  destruct (dict_get (stock_data w) item) as [v|]; simpl.
  - repeat split; try discriminate.
    intros [e E]; discriminate.
  - repeat split; eauto.
Qed.

(** ** [check_low_items] *)

Lemma low_loop (t : Z) (d : dict) :
  forall acc, fold_left (low_step t) d acc = acc ++ low_entries t d.
Proof.
  unfold low_entries.
  induction d as [|[name qty] r IH]; intros acc; simpl.
  - now rewrite app_nil_r.
  - rewrite IH. destruct (qty <? t); simpl; [|reflexivity].
    now rewrite <- app_assoc.
Qed.

Lemma low_entries_In (t : Z) (d : dict) (name : str) :
  In name (low_entries t d) <-> exists qty, In (name, qty) d /\ qty < t.
Proof.
  unfold low_entries. rewrite in_map_iff. split.
  - intros [[n q] [E H]]. simpl in E. subst n.
    apply filter_In in H. destruct H as [H L]. simpl in L.
    exists q. split; [exact H | now apply Z.ltb_lt].
  - intros [q [H L]]. exists (name, q). split; [reflexivity|].
    apply filter_In. split; [exact H | now apply Z.ltb_lt].
Qed.

(** C6.  For a threshold that is a non-negative [int],
    [check_low_items(threshold)] returns the names of the entries whose
    quantity is strictly below the threshold, each once per entry and in the
    iteration (insertion) order of the dictionary, and changes nothing; on
    [{apple: 10, banana: 2}] with threshold 5 the result is [["banana"]]. *)
Theorem check_low_items_lists (w : world) (threshold : pyval) (t : Z) :
  as_int threshold = Some t ->
  0 <= t ->
  check_low_items threshold w = (Returned (low_entries t (stock_data w)), w) /\
  (forall name,
     In name (low_entries t (stock_data w)) <->
     exists qty, In (name, qty) (stock_data w) /\ qty < t) /\
  result_of
    (check_low_items (PyInt 5)
       (mkWorld [(lit "apple", 10); (lit "banana", 2)] (logged w) (files w))) =
  Returned [lit "banana"].
Proof.
  intros Ht Hpos. unfold check_low_items. rewrite Ht.
  assert ((t <? 0) = false) as -> by now apply Z.ltb_ge.
  run. rewrite low_loop. simpl. repeat split; try apply low_entries_In.
Qed.

Lemma check_low_items_lists_witness :
  let w := mkWorld [(lit "kiwi", 1); (lit "apple", 10); (lit "fig", -4);
                    (lit "banana", 2)] [] [] in
  check_low_items (PyInt 3) w =
  (Returned [lit "kiwi"; lit "fig"; lit "banana"], w).
Proof.
  intros w.
  exact (proj1 (check_low_items_lists w (PyInt 3) 3 eq_refl ltac:(lia))).
Defined.

(** C9.  When [threshold] is not a non-negative [int],
    [check_low_items(threshold)] raises [ValueError]; nothing catches it
    inside the function, and the world is as before. *)
Theorem check_low_items_invalid (w : world) (threshold : pyval) :
  is_nonneg_int threshold = false ->
  check_low_items threshold w =
  (Raised (ValueError "threshold must be a non-negative int"), w).
Proof.
  unfold is_nonneg_int, check_low_items. intros H.
  destruct (as_int threshold) as [t|]; [|reflexivity].
  assert ((t <? 0) = true) as ->.
  { apply Z.ltb_lt. now apply Z.leb_gt in H. }
  reflexivity.
Qed.

Lemma check_low_items_invalid_witness :
  check_low_items (PyInt (-1)) (mkWorld [(lit "apple", 10)] [] []) =
  (Raised (ValueError "threshold must be a non-negative int"),
   mkWorld [(lit "apple", 10)] [] []).
Proof.
  exact (check_low_items_invalid (mkWorld [(lit "apple", 10)] [] [])
           (PyInt (-1)) eq_refl).
Defined.

(** ** The keys of the dictionary *)

Lemma trimmed_key_nonblank (k : str) : trimmed_key k -> nonblank_key k.
Proof.
  unfold trimmed_key, nonblank_key. intros [N ->].
  destruct k; [congruence | reflexivity].
Qed.

Lemma keys_nonblank_set (d : dict) (k : str) (v : Z) :
  Forall nonblank_key (keys d) -> nonblank_key k ->
  Forall nonblank_key (keys (dict_set d k v)).
Proof.
  intros F N. rewrite keys_set. destruct (dict_get d k); [exact F|].
  apply Forall_app. split; [exact F | now constructor].
Qed.

Lemma keys_nonblank_del (d d' : dict) (k : str) :
  Forall nonblank_key (keys d) -> dict_del d k = Some d' ->
  Forall nonblank_key (keys d').
Proof.
  intros F D. rewrite Forall_forall in *.
  intros k2 I. apply F. eapply keys_del; eauto.
Qed.

Lemma add_item_keys_nonblank (w : world) (item qty : pyval)
    (logs : option (list str)) (now : str) :
  keys_nonblank w -> keys_nonblank (world_of (add_item item qty logs now w)).
Proof.
  unfold keys_nonblank, add_item. intros F.
  destruct (as_str item) as [name|]; [|exact F].
  destruct (truthy (strip name)) eqn:T; simpl; [|exact F].
  destruct (as_int qty) as [q|]; [|exact F].
  run. now apply keys_nonblank_set.
Qed.

Lemma remove_item_keys_nonblank (w : world) (item : str) (qty : pyval) :
  keys_nonblank w -> keys_nonblank (world_of (remove_item item qty w)).
Proof.
  unfold keys_nonblank, remove_item. intros F.
  destruct (as_int qty) as [q|]; [|exact F].
  destruct (q <? 0); [exact F|]. run.
  destruct (dict_get (stock_data w) item) as [current|] eqn:G; [|exact F].
  destruct (current - q <=? 0).
  - destruct (dict_del (stock_data w) item) as [d'|] eqn:D; simpl; [|exact F].
    eapply keys_nonblank_del; eauto.
  - simpl. rewrite keys_set, G. exact F.
Qed.

(** C4, as the code has it.  [add_item] checks that something is left of the
    name after trimming and stores the name as given, untrimmed;
    [remove_item] adds no key.  So both keep the invariant that every key is
    non-blank (non-empty after trimming), and a valid [add_item] makes the
    given name itself a key.  [load_data] binds the dictionary to whatever
    object the file holds, without looking at its keys. *)
Theorem keys_stay_nonblank (w : world) :
  keys_nonblank w ->
  (forall item qty logs now,
     keys_nonblank (world_of (add_item item qty logs now w))) /\
  (forall name qty logs now,
     nonblank_key name -> as_int qty <> None ->
     In name (keys (stock_data
                      (world_of (add_item (PyStr name) qty logs now w))))) /\
  (forall item qty, keys_nonblank (world_of (remove_item item qty w))) /\
  (forall path w',
     load_data path w = (Returned tt, w') ->
     exists t,
       file_read (files w) path = Some t /\
       json_loads t = Some (stock_data w')).
Proof.
  intros F. repeat split.
  - intros. now apply add_item_keys_nonblank.
  - intros name qty logs now N Q.
    destruct (as_int qty) as [q|] eqn:Eq; [|congruence].
    destruct (add_item_valid w name qty q logs now N Eq) as [l ->].
    unfold world_of; simpl. rewrite keys_set.
    destruct (dict_get (stock_data w) name) eqn:G.
    + destruct (in_dec str_eq_dec name (keys (stock_data w))) as [I|I];
        [exact I|]. apply dict_get_None in I. congruence.
    + apply in_or_app. right. now left.
  - intros. now apply remove_item_keys_nonblank.
  - intros path w'. unfold load_data.
    destruct (file_read (files w) path) as [t|]; [|discriminate].
    destruct (json_loads t) as [d|] eqn:J; [|discriminate].
    intros [= <-]. exists t. split; [reflexivity | exact J].
Qed.

Lemma keys_stay_nonblank_witness :
  let w := mkWorld [(lit " apple", 1)] []
             [(lit "f", lit "{" ++ [QUOTE; QUOTE] ++ lit ": 3}")] in
  keys_nonblank (world_of (add_item (PyStr (lit "pear ")) (PyInt 2) None
                             (lit "t") w)) /\
  keys_nonblank (world_of (remove_item (lit " apple") (PyInt 1) w)) /\
  In (lit "pear ")
    (keys (stock_data (world_of (add_item (PyStr (lit "pear ")) (PyInt 2) None
                                   (lit "t") w)))) /\
  exists t, file_read (files w) (lit "f") = Some t /\
            json_loads t = Some [([], 3)].
Proof.
  intros w.
  assert (F : keys_nonblank w) by (repeat constructor).
  destruct (keys_stay_nonblank w F) as (A & I & R & L).
  split; [apply A|]. split; [apply R|]. split.
  - apply I; [reflexivity | discriminate].
  - apply (L (lit "f") (mkWorld [([], 3)] [] (files w))). reflexivity.
Defined.

(** C4 as worded does not hold: a name with a leading blank passes the check
    of [add_item] and is stored with the blank; and [load_data] takes the
    empty key of a file as it is. *)
Lemma keys_not_always_trimmed :
  keys_trimmed empty_world /\
  ~ keys_trimmed
      (world_of (add_item (PyStr (lit " apple")) (PyInt 1) None (lit "t")
                   empty_world)) /\
  ~ keys_trimmed
      (world_of (load_data (lit "f")
                   (mkWorld [] []
                      [(lit "f", lit "{" ++ [QUOTE; QUOTE] ++ lit ": 3}")]))).
Proof.
  split; [constructor|]. split.
  - intros H. inversion H as [|? ? [_ T] _]. discriminate T.
  - intros H. inversion H as [|? ? [N _] _]. now apply N.
Qed.

(** ** Decimal text and [scan_int] *)

Lemma span_digits_uint_text (u : Decimal.uint) (rest : text) :
  no_digit_head rest -> span_digits (uint_text u ++ rest) = (u, rest).
Proof.
  intros H. induction u; simpl;
    try (rewrite IHu; reflexivity).
  destruct rest as [|c r]; simpl in *; [reflexivity | now rewrite H].
Qed.

Lemma to_uint_head (p : positive) :
  exists c r, uint_text (Pos.to_uint p) = c :: r /\
              is_digit c = true /\ (c =? 48)%N = false.
Proof.
  pose proof (DecimalPos.Unsigned.to_uint_nonzero p) as NZ.
  pose proof (DecimalPos.Unsigned.to_of (Pos.to_uint p)) as U.
  rewrite DecimalPos.Unsigned.of_to in U. simpl in U.
  destruct (Pos.to_uint p) as [|u|u|u|u|u|u|u|u|u|u] eqn:E;
    try (simpl; eexists _, _; repeat split; reflexivity).
  - discriminate U.
  - exfalso. rewrite DecimalFacts.unorm_D0 in U.
    unfold Decimal.unorm in U.
    pose proof (DecimalFacts.nzhead_nonzero u) as NH.
    destruct (Decimal.nzhead u) eqn:Hd;
      try (symmetry in U; now apply NH in U).
    apply NZ. exact U.
Qed.

Lemma int_repr_head (n : Z) :
  exists c r, int_repr n = c :: r /\ is_ws c = false.
Proof.
  unfold int_repr. destruct n as [|p|p]; simpl.
  - now eexists _, _.
  - destruct (to_uint_head p) as (c & r & -> & D & _).
    exists c, r. split; [reflexivity|].
    unfold is_digit in D. unfold is_ws.
    apply andb_prop in D. destruct D as [L U].
    apply N.leb_le in L. apply N.leb_le in U.
    repeat (apply orb_false_intro); apply N.eqb_neq; lia.
  - now eexists _, _.
Qed.

Lemma scan_int_unsigned (p : positive) (neg : bool) (rest : text) :
  no_digit_head rest ->
  scan_int ((if neg then [45%N] else []) ++ uint_text (Pos.to_uint p) ++ rest) =
  Some (Z.of_int (if neg then Decimal.Neg (Pos.to_uint p)
                  else Decimal.Pos (Pos.to_uint p)), rest).
Proof.
  intros H. destruct (to_uint_head p) as (c & r & E & D & NZ).
  pose proof (span_digits_uint_text (Pos.to_uint p) rest H) as S.
  rewrite E in *. unfold scan_int.
  assert ((c =? ch "-")%N = false) as M.
  { unfold is_digit in D. apply andb_prop in D. destruct D as [L _].
    apply N.leb_le in L. apply N.eqb_neq. unfold ch; simpl. lia. }
  change (ch "-") with 45%N in *. change (ch "0") with 48%N.
  simpl app in S.
  destruct neg; simpl app.
  - cbv beta iota. rewrite N.eqb_refl. cbv beta iota.
    rewrite NZ, D, S. reflexivity.
  - cbv beta iota. rewrite M. cbv beta iota.
    rewrite NZ, D, S. reflexivity.
Qed.

Lemma scan_int_repr (n : Z) (rest : text) :
  no_digit_head rest -> scan_int (int_repr n ++ rest) = Some (n, rest).
Proof.
  intros H. rewrite <- (DecimalZ.of_to n) at 2.
  unfold int_repr. destruct n as [|p|p]; simpl Z.to_int.
  - reflexivity.
  - exact (scan_int_unsigned p false rest H).
  - exact (scan_int_unsigned p true rest H).
Qed.

(** ** Strings: [scanstring] reads back what [encode_basestring] writes *)

Lemma below_32 (c : N) :
  (c <? 32)%N = true ->
  (c = 0 \/ c = 1 \/ c = 2 \/ c = 3 \/ c = 4 \/ c = 5 \/ c = 6 \/ c = 7 \/ c = 8 \/ c = 9 \/ c = 10 \/ c = 11 \/ c = 12 \/ c = 13 \/ c = 14 \/ c = 15 \/ c = 16 \/ c = 17 \/ c = 18 \/ c = 19 \/ c = 20 \/ c = 21 \/ c = 22 \/ c = 23 \/ c = 24 \/ c = 25 \/ c = 26 \/ c = 27 \/ c = 28 \/ c = 29 \/ c = 30 \/ c = 31)%N.
Proof. intros H. apply N.ltb_lt in H. lia. Qed.

Lemma scanstring_plain (c : char) (s : text) :
  (c =? 34)%N = false -> (c =? 92)%N = false -> (c <? 32)%N = false ->
  scanstring (c :: s) = prepend c (scanstring s).
Proof.
  intros Q B L. simpl. unfold QUOTE, BACKSLASH. now rewrite Q, B, L.
Qed.

Lemma scanstring_escaped (k : str) (rest : text) :
  scanstring (flat_map escape_char k ++ QUOTE :: rest) = Some (k, rest).
Proof.
  induction k as [|c k IH]; [reflexivity|].
  cbn [flat_map]. rewrite <- app_assoc.
  unfold escape_char at 1. unfold QUOTE, BACKSLASH, ch. simpl N_of_ascii.
  destruct (c =? 34)%N eqn:E1.
  { apply N.eqb_eq in E1. subst c. simpl.
    fold QUOTE. now rewrite IH. }
  destruct (c =? 92)%N eqn:E2.
  { apply N.eqb_eq in E2. subst c. simpl.
    fold QUOTE. now rewrite IH. }
  destruct (c <? 32)%N eqn:L.
  - apply below_32 in L.
    repeat (destruct L as [L|L];
            [subst c; simpl; fold QUOTE; now rewrite IH|]).
    subst c; simpl; fold QUOTE; now rewrite IH.
  - assert (forall n : N, (n < 32)%N -> (c =? n)%N = false) as NE.
    { intros n Hn. apply N.eqb_neq. apply N.ltb_ge in L. lia. }
    rewrite !NE by lia.
    cbn [app]. rewrite scanstring_plain by assumption.
    fold QUOTE. now rewrite IH.
Qed.

(** ** The fuel of [scan_members]

    Every round of the loop consumes some of the text, so the result does not
    depend on the fuel once it reaches the length of the text: the bound
    [JSONObject] passes never cuts a run short. *)

Lemma prepend_Some (c : char) (r : option (str * text)) (k : str) (rest : text) :
  prepend c r = Some (k, rest) -> exists k', r = Some (k', rest).
Proof.
  destruct r as [[k' rest']|]; simpl; [|discriminate].
  intros [= _ <-]. now exists k'.
Qed.

Lemma scanstring_shorter (n : nat) :
  forall (s : text) (k : str) (rest : text),
    (List.length s <= n)%nat ->
    scanstring s = Some (k, rest) ->
    (List.length rest < List.length s)%nat.
Proof.
  induction n as [|n IH]; intros s k rest L H;
    (destruct s as [|c r]; [discriminate|]); cbn [List.length] in L; [lia|].
  cbn [scanstring] in H.
  repeat match type of H with
         | context [if ?b then _ else _] => destruct b; try discriminate
         | context [match ?x with _ => _ end] => destruct x; try discriminate
         end;
    try (injection H as _ <-; cbn [List.length]; lia);
    apply prepend_Some in H; destruct H as [k' H];
    apply IH in H; cbn [List.length] in *; lia.
Qed.

Lemma skip_ws_length (s : text) :
  (List.length (skip_ws s) <= List.length s)%nat.
Proof.
  induction s as [|c r IH]; simpl; [lia|].
  destruct (is_ws c); simpl; lia.
Qed.

Lemma span_digits_length (s : text) :
  (List.length (snd (span_digits s)) <= List.length s)%nat.
Proof.
  induction s as [|c r IH]; simpl; [lia|].
  destruct (is_digit c); simpl; [|lia].
  destruct (span_digits r); simpl in *; lia.
Qed.

Lemma scan_int_shorter (s : text) (v : Z) (rest : text) :
  scan_int s = Some (v, rest) ->
  (List.length rest < List.length s)%nat.
Proof.
  unfold scan_int.
  assert (forall (neg : bool) (s1 : text),
            match s1 with
            | [] => None
            | c :: r =>
                if (c =? ch "0")%N
                then Some (Z.of_int ((fun d => if neg then Decimal.Neg d
                                               else Decimal.Pos d)
                                       (Decimal.D0 Decimal.Nil)), r)
                else if is_digit c
                     then let (d, rest0) := span_digits s1 in
                          Some (Z.of_int (if neg then Decimal.Neg d
                                          else Decimal.Pos d), rest0)
                     else None
            end = Some (v, rest) ->
            (List.length rest < List.length s1)%nat) as G.
  { intros neg [|c r]; [discriminate|].
    destruct (c =? ch "0")%N.
    - intros [= _ <-]. simpl. lia.
    - destruct (is_digit c) eqn:D; [|discriminate].
      pose proof (span_digits_length r) as B.
      simpl span_digits. rewrite D.
      destruct (span_digits r) as [d rest0]. intros [= _ <-].
      simpl in *. lia. }
  destruct s as [|c r]; [discriminate|].
  destruct (c =? ch "-")%N; intros H.
  - apply (G true) in H. simpl. lia.
  - apply (G false (c :: r)) in H. exact H.
Qed.

Lemma scan_members_fuel (f1 : nat) :
  forall (f2 : nat) (s : text),
    (List.length s <= f1)%nat -> (List.length s <= f2)%nat ->
    scan_members f1 s = scan_members f2 s.
Proof.
  induction f1 as [|f1 IH]; intros f2 s L1 L2.
  - destruct s; [|simpl in L1; lia]. now destruct f2.
  - destruct f2 as [|f2].
    + destruct s; [reflexivity | simpl in L2; lia].
    + cbn [scan_members].
      destruct (scanstring s) as [[key s1]|] eqn:S1; [|reflexivity].
      apply (scanstring_shorter (List.length s) s _ _ (le_n _)) in S1.
      pose proof (skip_ws_length s1) as W1.
      destruct (skip_ws s1) as [|c s2]; [reflexivity|].
      destruct (negb (c =? ch ":")%N); [reflexivity|].
      pose proof (skip_ws_length s2) as W2.
      destruct (scan_int (skip_ws s2)) as [[value s3]|] eqn:S3; [|reflexivity].
      apply scan_int_shorter in S3.
      pose proof (skip_ws_length s3) as W3.
      destruct (skip_ws s3) as [|nextchar s4]; [reflexivity|].
      destruct (nextchar =? ch "}")%N; [reflexivity|].
      destruct (negb (nextchar =? ch ",")%N); [reflexivity|].
      pose proof (skip_ws_length s4) as W4.
      destruct (skip_ws s4) as [|q s5]; [reflexivity|].
      destruct (negb (q =? QUOTE)%N); [reflexivity|].
      cbn [List.length] in *.
      rewrite (IH f2 s5) by lia. reflexivity.
Qed.

(** ** The object: [scan_members] on the text of the entries *)

Lemma skip_ws_int_repr (n : Z) (tail : text) :
  skip_ws (int_repr n ++ tail) = int_repr n ++ tail.
Proof.
  destruct (int_repr_head n) as (c & r & -> & W). simpl. now rewrite W.
Qed.

Lemma scan_members_step (fuel : nat) (k : str) (v : Z) (tail : text) :
  no_digit_head tail ->
  scan_members (S fuel) (after_quote k v tail) =
  match skip_ws tail with
  | [] => None
  | nextchar :: s4 =>
      if (nextchar =? ch "}")%N then Some ([(k, v)], s4)
      else if negb (nextchar =? ch ",")%N then None
      else
        match skip_ws s4 with
        | [] => None
        | q :: s5 =>
            if negb (q =? QUOTE)%N then None
            else
              match scan_members fuel s5 with
              | Some (pairs, rest) => Some ((k, v) :: pairs, rest)
              | None => None
              end
        end
  end.
Proof.
  intros H. unfold after_quote. cbn [scan_members].
  rewrite scanstring_escaped.
  change (key_separator ++ int_repr v ++ tail)
    with (58%N :: 32%N :: int_repr v ++ tail).
  change (skip_ws (58%N :: 32%N :: int_repr v ++ tail))
    with (58%N :: 32%N :: int_repr v ++ tail).
  cbv beta iota. change ((58 =? ch ":")%N) with true. cbn [negb].
  change (skip_ws (32%N :: int_repr v ++ tail))
    with (skip_ws (int_repr v ++ tail)).
  rewrite skip_ws_int_repr, scan_int_repr by exact H.
  reflexivity.
Qed.

Lemma concat_items_cons (first : bool) (k : str) (v : Z) (r : dict)
    (tail : text) :
  List.concat (iterencode_items first ((k, v) :: r)) ++ tail =
  (if first then [] else item_separator) ++
  QUOTE :: after_quote k v (List.concat (iterencode_items false r) ++ tail).
Proof.
  unfold after_quote. cbn [iterencode_items].
  rewrite concat_app. cbn [List.concat]. unfold encode_basestring.
  destruct first; cbn [List.concat app];
    repeat (rewrite <- ?List.app_assoc, ?List.app_nil_r; cbn [app]);
    reflexivity.
Qed.

Lemma scan_members_all (es : dict) :
  forall (k : str) (v : Z) (fuel : nat) (rest : text),
    (List.length es < fuel)%nat ->
    scan_members fuel
      (after_quote k v
         (List.concat (iterencode_items false es) ++ NEWLINE :: ch "}" :: rest)) =
    Some ((k, v) :: es, rest).
Proof.
  induction es as [|[k' v'] es IH]; intros k v fuel rest L;
    (destruct fuel as [|fuel]; [simpl in L; lia|]).
  - rewrite scan_members_step by reflexivity. reflexivity.
  - rewrite concat_items_cons.
    rewrite scan_members_step by reflexivity.
    cbn. rewrite IH by (simpl in L; lia). reflexivity.
Qed.

Lemma scan_members_cut (es : dict) :
  forall (k : str) (v : Z) (fuel : nat),
    scan_members fuel
      (after_quote k v
         (List.concat (iterencode_items false es) ++ item_separator)) = None.
Proof.
  induction es as [|[k' v'] es IH]; intros k v fuel;
    (destruct fuel as [|fuel]; [reflexivity|]).
  - rewrite scan_members_step by reflexivity. reflexivity.
  - rewrite concat_items_cons.
    rewrite scan_members_step by reflexivity.
    cbn. now rewrite IH.
Qed.

Lemma length_items (es : dict) (first : bool) :
  (List.length es <= List.length (List.concat (iterencode_items first es)))%nat.
Proof.
  revert first. induction es as [|[k v] es IH]; intros first; [simpl; lia|].
  rewrite <- (List.app_nil_r (List.concat _)), concat_items_cons.
  rewrite List.app_nil_r.
  unfold after_quote. rewrite !length_app. cbn [List.length].
  rewrite !length_app. specialize (IH false). simpl List.length.
  rewrite length_app. lia.
Qed.

Lemma dict_of_pairs_ok (d : dict) : dict_ok d -> dict_of_pairs d = d.
Proof.
  unfold dict_of_pairs.
  enough (G : forall acc, dict_ok (acc ++ d) ->
              fold_left (fun d0 (p : str * Z) => dict_set d0 (fst p) (snd p))
                d acc = acc ++ d) by exact (G []).
  induction d as [|[k v] r IH]; intros acc OK; simpl.
  - now rewrite List.app_nil_r.
  - assert (A : dict_get acc k = None).
    { apply dict_get_None. unfold dict_ok, keys in OK.
      rewrite map_app in OK. simpl in OK.
      apply NoDup_remove_2 in OK. intros I. apply OK.
      apply in_or_app. now left. }
    rewrite (dict_set_absent acc k v A).
    rewrite IH; rewrite <- List.app_assoc; [reflexivity | exact OK].
Qed.

(** [json.loads(json.dumps(d))] is [d]. *)
Lemma json_loads_text (d : dict) : dict_ok d -> json_loads (json_text d) = Some d.
Proof.
  intros OK. destruct d as [|[k v] es]; [reflexivity|].
  unfold json_text, iterencode_dict.
  rewrite concat_app. cbn [List.concat].
  rewrite concat_app. cbn [List.concat app].
  rewrite concat_items_cons. cbn [app].
  change (lit "}" ++ []) with [ch "}"].
  change ([NEWLINE] ++ [ch "}"]) with (NEWLINE :: ch "}" :: []).
  change (lit "{") with [123%N]. change newline_indent with [10%N; 32%N; 32%N].
  set (body := after_quote k v _).
  cbn -[after_quote scan_members dict_of_pairs].
  subst body. rewrite scan_members_all.
  - rewrite (dict_of_pairs_ok _ OK). reflexivity.
  - unfold after_quote. rewrite !length_app. cbn [List.length].
    rewrite !length_app. pose proof (length_items es false). lia.
Qed.

(** ** Writing the chunks through UTF-8 *)

Lemma encodable_escape_char (c : char) :
  forallb encodable (escape_char c) = encodable c.
Proof.
  destruct (encodable c) eqn:E.
  - unfold escape_char.
    repeat match goal with
           | |- context [if ?b then _ else _] => destruct b eqn:?
           end; try reflexivity.
    + match goal with H : (c <? 32)%N = true |- _ => apply below_32 in H;
        repeat (destruct H as [H|H]; [subst c; reflexivity|]);
        subst c; reflexivity end.
    + simpl. now rewrite E.
  - assert (55296 <= c)%N as G.
    { unfold encodable in E. apply orb_false_elim in E.
      destruct E as [E _]. now apply N.ltb_ge in E. }
    unfold escape_char, QUOTE, BACKSLASH.
    assert (forall n : N, (n < 100)%N -> (c =? n)%N = false) as NE.
    { intros n Hn. apply N.eqb_neq. lia. }
    rewrite !NE by lia.
    assert ((c <? 32)%N = false) as -> by (apply N.ltb_ge; lia).
    simpl. now rewrite E.
Qed.

Lemma encodable_basestring (k : str) :
  forallb encodable (encode_basestring k) = forallb encodable k.
Proof.
  unfold encode_basestring. cbn [forallb]. rewrite forallb_app.
  change (encodable QUOTE) with true. cbn [forallb andb].
  rewrite andb_true_r.
  induction k as [|c k IH]; [reflexivity|].
  cbn [flat_map forallb]. now rewrite forallb_app, encodable_escape_char, IH.
Qed.

Lemma encodable_int_repr (n : Z) : forallb encodable (int_repr n) = true.
Proof.
  assert (forall u, forallb encodable (uint_text u) = true) as U.
  { induction u; simpl; auto. }
  unfold int_repr. destruct (Z.to_int n); simpl; apply U.
Qed.

Lemma write_chunks_ok (chunks : list text) :
  forall written,
    forallb (forallb encodable) chunks = true ->
    write_chunks chunks written = (written ++ List.concat chunks, true).
Proof.
  induction chunks as [|c r IH]; intros written H; simpl in *.
  - now rewrite List.app_nil_r.
  - apply andb_prop in H. destruct H as [Hc Hr].
    rewrite Hc, IH by exact Hr. now rewrite List.app_assoc.
Qed.

Lemma items_encodable (es : dict) (first : bool) :
  keys_encodable es = true ->
  forallb (forallb encodable) (iterencode_items first es) = true.
Proof.
  revert first. induction es as [|[k v] es IH]; intros first H; [reflexivity|].
  simpl in H. apply andb_prop in H. destruct H as [Hk Hes].
  cbn [iterencode_items app]. rewrite forallb_app. cbn [forallb].
  rewrite encodable_basestring, Hk, encodable_int_repr.
  repeat (apply andb_true_intro; split);
    [now destruct first | reflexivity.. | exact (IH false Hes)].
Qed.

Lemma write_items_fail (es : dict) :
  forall (first : bool) (written : text) (k : str) (v : Z) (es1 : dict)
         (more : list text),
    keys_encodable es = true ->
    forallb encodable k = false ->
    write_chunks (iterencode_items first (es ++ (k, v) :: es1) ++ more) written =
    (written ++ List.concat (iterencode_items first es) ++
     (if first && match es with [] => true | _ :: _ => false end
      then [] else item_separator),
     false).
Proof.
  induction es as [|[k0 v0] es IH]; intros first written k v es1 more He Hk.
  - cbn [app iterencode_items List.concat]. destruct first; cbn [app andb].
    + cbn [write_chunks]. rewrite encodable_basestring, Hk.
      now rewrite List.app_nil_r.
    + cbn [write_chunks].
      change (forallb encodable item_separator) with true. cbv iota.
      now rewrite encodable_basestring, Hk.
  - simpl in He. apply andb_prop in He. destruct He as [Hk0 Hes].
    rewrite andb_false_r.
    cbn [app iterencode_items].
    rewrite <- !List.app_assoc. cbn [app].
    destruct first; cbn [app write_chunks];
      change (forallb encodable item_separator) with true;
      change (forallb encodable key_separator) with true; cbv iota;
      rewrite ?encodable_basestring, ?Hk0, ?encodable_int_repr;
      rewrite (IH false _ k v es1 more Hes Hk);
      cbn [andb List.concat app];
      repeat rewrite <- ?List.app_assoc; reflexivity.
Qed.

Lemma first_unencodable (d : dict) :
  keys_encodable d = false ->
  exists es k v es1,
    d = es ++ (k, v) :: es1 /\ keys_encodable es = true /\
    forallb encodable k = false.
Proof.
  induction d as [|[k v] r IH]; simpl; [discriminate|].
  destruct (forallb encodable k) eqn:Hk; simpl.
  - intros H. destruct (IH H) as (es & k' & v' & es1 & -> & He & Hk').
    exists ((k, v) :: es), k', v', es1. simpl. now rewrite Hk, He.
  - intros _. now exists [], k, v, r.
Qed.

Lemma keys_encodable_Forall (d : dict) :
  keys_encodable d = true <-> Forall encodable_key (keys d).
Proof.
  unfold keys_encodable, keys, encodable_key.
  rewrite forallb_forall, Forall_forall. split.
  - intros H k I. apply in_map_iff in I. destruct I as [[k' v] [<- I]].
    exact (H _ I).
  - intros H [k v] I. apply H. apply in_map_iff. now exists (k, v).
Qed.

(** What [save_data] leaves in the file, by cases on the keys. *)
Lemma write_dict (d : dict) :
  write_chunks (iterencode_dict d) [] =
  if keys_encodable d then (json_text d, true)
  else (fst (write_chunks (iterencode_dict d) []), false).
Proof.
  destruct (keys_encodable d) eqn:E.
  - rewrite write_chunks_ok; [reflexivity|].
    destruct d as [|e es]; [reflexivity|].
    unfold iterencode_dict. rewrite !forallb_app.
    apply andb_true_intro; split; [reflexivity|].
    apply andb_true_intro; split;
      [exact (items_encodable (e :: es) true E) | reflexivity].
  - destruct (first_unencodable d E) as (es & k & v & es1 & -> & He & Hk).
    assert (exists e r, es ++ (k, v) :: es1 = e :: r) as (e & r & C).
    { destruct es; simpl; eauto. }
    rewrite C. unfold iterencode_dict. rewrite <- C.
    cbn [app write_chunks].
    change (forallb encodable (lit "{")) with true.
    change (forallb encodable newline_indent) with true. cbv iota.
    now rewrite (write_items_fail es true _ k v es1 _ He Hk).
Qed.

Lemma truncated_text_rejected (d : dict) :
  keys_encodable d = false ->
  json_loads (fst (write_chunks (iterencode_dict d) [])) = None.
Proof.
  intros E.
  destruct (first_unencodable d E) as (es & k & v & es1 & -> & He & Hk).
  assert (exists e r, es ++ (k, v) :: es1 = e :: r) as (e & r & C).
  { destruct es; simpl; eauto. }
  rewrite C. unfold iterencode_dict. rewrite <- C.
  cbn [app write_chunks].
  change (forallb encodable (lit "{")) with true.
  change (forallb encodable newline_indent) with true. cbv iota.
  rewrite (write_items_fail es true _ k v es1 _ He Hk). cbn [fst].
  destruct es as [|[k0 v0] es]; [reflexivity|].
  cbn [andb]. rewrite concat_items_cons.
  set (body := after_quote k0 v0 _).
  cbn -[after_quote scan_members dict_of_pairs].
  subst body. now rewrite scan_members_cut.
Qed.

(** ** [save_data] then [load_data] *)

Lemma file_read_head (fs : list (str * text)) (path : str) (t : text) :
  file_read ((path, t) :: fs) path = Some t.
Proof.
  simpl. destruct (str_eq_dec path path); congruence.
Qed.

Lemma save_data_run (w : world) (path : str) :
  save_data path w =
  if keys_encodable (stock_data w)
  then (Returned tt,
        mkWorld (stock_data w) (logged w)
          ((path, json_text (stock_data w)) :: files w))
  else (Raised UnicodeEncodeError,
        mkWorld (stock_data w) (logged w)
          ((path, fst (write_chunks (iterencode_dict (stock_data w)) []))
           :: files w)).
Proof.
  unfold save_data. rewrite write_dict.
  now destruct (keys_encodable (stock_data w)).
Qed.

(** C3.  For every dictionary and every path, [save_data(path)] followed by
    [load_data(path)] leaves [stock_data] equal to the dictionary at the time
    of the save: same keys, same integers, same order; this holds for the two
    calls run as a program (an exception of the first ends it) and for the
    second run after the first whatever the first's outcome.  [save_data]
    returns normally exactly when UTF-8 can encode every key; the file then
    holds the JSON text of the dictionary, and [load_data(path)] returns
    normally and rebinds [stock_data] to the saved dictionary, whatever it was
    bound to in between.  (With a key holding a lone surrogate [save_data]
    raises, the file is left cut short, [load_data] raises on it and the
    dictionary is not touched.) *)
Theorem save_load_roundtrip (w : world) (path : str) :
  dict_ok (stock_data w) ->
  let w1 := world_of (save_data path w) in
  let w2 := world_of (load_data path w1) in
  stock_data w1 = stock_data w /\
  stock_data w2 = stock_data w /\
  stock_data (world_of ((save_data path ;;; load_data path) w)) =
  stock_data w /\
  (result_of (save_data path w) = Returned tt <->
   Forall encodable_key (keys (stock_data w))) /\
  (Forall encodable_key (keys (stock_data w)) ->
   file_read (files w1) path = Some (json_text (stock_data w)) /\
   result_of ((save_data path ;;; load_data path) w) = Returned tt /\
   forall (d' : dict) (lg : list log_record),
     load_data path (mkWorld d' lg (files w1)) =
     (Returned tt, mkWorld (stock_data w) lg (files w1))).
Proof.
  intros OK w1 w2. subst w2 w1. unfold bind. rewrite save_data_run.
  rewrite <- keys_encodable_Forall.
  destruct (keys_encodable (stock_data w)) eqn:E;
    unfold world_of, result_of; cbn [fst snd stock_data files logged].
  - unfold load_data. cbn [files]. rewrite file_read_head.
    rewrite (json_loads_text _ OK). cbn [fst snd stock_data].
    repeat split; reflexivity.
  - unfold load_data. cbn [files]. rewrite file_read_head.
    rewrite (truncated_text_rejected _ E). cbn [fst snd stock_data].
    repeat split; try discriminate.
Qed.

Lemma save_load_roundtrip_witness :
  let d := [(lit "apple", 7); (lit "banana", -2); ([233%N; 128512%N; 34%N], 0);
            ([10%N; 92%N; 31%N], 12345678901234567890)] in
  let w := mkWorld d [] [] in
  let w1 := world_of (save_data (lit "inventory.json") w) in
  let w2 := world_of (load_data (lit "inventory.json") w1) in
  stock_data w1 = d /\
  stock_data w2 = d /\
  stock_data
    (world_of ((save_data (lit "inventory.json") ;;;
                load_data (lit "inventory.json")) w)) = d /\
  (result_of (save_data (lit "inventory.json") w) = Returned tt <->
   Forall encodable_key (keys d)) /\
  (Forall encodable_key (keys d) ->
   file_read (files w1) (lit "inventory.json") = Some (json_text d) /\
   result_of ((save_data (lit "inventory.json") ;;;
               load_data (lit "inventory.json")) w) = Returned tt /\
   forall (d' : dict) (lg : list log_record),
     load_data (lit "inventory.json") (mkWorld d' lg (files w1)) =
     (Returned tt, mkWorld d lg (files w1))).
Proof.
  intros d w.
  assert (OK : dict_ok (stock_data w)).
  { repeat constructor; simpl; intuition discriminate. }
  exact (save_load_roundtrip w (lit "inventory.json") OK).
Defined.

(** ** The store stays a dictionary

    No operation makes a key occur twice, so [dict_ok] holds of every state
    reached from the empty store. *)

Lemma dict_of_pairs_dict_ok (pairs : list (str * Z)) :
  dict_ok (dict_of_pairs pairs).
Proof.
  unfold dict_of_pairs.
  enough (G : forall acc, dict_ok acc ->
              dict_ok (fold_left
                         (fun d (p : str * Z) => dict_set d (fst p) (snd p))
                         pairs acc)) by (apply G; constructor).
  induction pairs as [|[k v] r IH]; intros acc OK; simpl; [exact OK|].
  apply IH. now apply dict_ok_set.
Qed.

Lemma JSONObject_dict_ok (s : text) (d : dict) (rest : text) :
  JSONObject s = Some (d, rest) -> dict_ok d.
Proof.
  unfold JSONObject.
  destruct (skip_ws s) as [|c r]; [discriminate|].
  destruct (c =? ch "}")%N; [intros [= <- _]; apply NoDup_nil|].
  destruct (negb (c =? QUOTE)%N); [discriminate|].
  destruct (scan_members (List.length r) r) as [[pairs rest']|];
    [|discriminate].
  intros [= <- _]. apply dict_of_pairs_dict_ok.
Qed.

Lemma json_loads_dict_ok (t : text) (d : dict) :
  json_loads t = Some d -> dict_ok d.
Proof.
  unfold json_loads.
  destruct (match t with c :: _ => (c =? 65279)%N | [] => false end);
    [discriminate|].
  destruct (skip_ws t) as [|c r]; [discriminate|].
  destruct (negb (c =? ch "{")%N); [discriminate|].
  destruct (JSONObject r) as [[d0 rest]|] eqn:J; [|discriminate].
  destruct (skip_ws rest); [|discriminate].
  intros [= <-]. exact (JSONObject_dict_ok r d0 rest J).
Qed.

Lemma operations_keep_dict_ok (w : world) :
  dict_ok (stock_data w) ->
  (forall item qty logs now,
     dict_ok (stock_data (world_of (add_item item qty logs now w)))) /\
  (forall item qty, dict_ok (stock_data (world_of (remove_item item qty w)))) /\
  (forall path, dict_ok (stock_data (world_of (load_data path w)))) /\
  (forall path, dict_ok (stock_data (world_of (save_data path w)))).
Proof.
  intros OK. repeat split.
  - intros item qty logs now. unfold add_item.
    destruct (as_str item) as [name|]; [|exact OK].
    destruct (truthy (strip name)); simpl; [|exact OK].
    destruct (as_int qty) as [q|]; [|exact OK].
    run. now apply dict_ok_set.
  - intros item qty. unfold remove_item.
    destruct (as_int qty) as [q|]; [|exact OK].
    destruct (q <? 0); [exact OK|]. run.
    destruct (dict_get (stock_data w) item) as [current|]; [|exact OK].
    destruct (current - q <=? 0).
    + destruct (dict_del (stock_data w) item) as [d'|] eqn:D; simpl;
        [|exact OK].
      exact (dict_ok_del item _ _ OK D).
    + simpl. now apply dict_ok_set.
  - intros path. unfold load_data.
    destruct (file_read (files w) path) as [t|]; [|exact OK].
    destruct (json_loads t) as [d|] eqn:J; [|exact OK].
    exact (json_loads_dict_ok t d J).
  - intros path. rewrite save_data_run.
    now destruct (keys_encodable (stock_data w)).
Qed.

(** ** Runs on concrete stores *)

Example add_blank_name_is_noop :
  stock_data (world_of (add_item (PyStr []) (PyInt 5) None (lit "t")
                          (mkWorld [(lit "apple", 1)] [] []))) =
    [(lit "apple", 1)] /\
  stock_data (world_of (add_item (PyStr (lit "   ")) (PyInt 5) None (lit "t")
                          (mkWorld [(lit "apple", 1)] [] []))) =
    [(lit "apple", 1)] /\
  stock_data (world_of (add_item (PyStr (lit "x")) (PyStr (lit "notanint"))
                          None (lit "t") (mkWorld [(lit "apple", 1)] [] []))) =
    [(lit "apple", 1)].
Proof. repeat split. Qed.

Example add_appends_audit_line :
  result_of (add_item (PyStr (lit "apple")) (PyInt (-3)) (Some [lit "old"])
               (lit "2024-01-01T00:00:00") empty_world) =
  Returned [lit "old"; lit "2024-01-01T00:00:00: Added -3 of apple"].
Proof. reflexivity. Qed.

Example saved_text :
  json_text [(lit "apple", 7); (lit "banana", -2)] =
  lit "{" ++ [NEWLINE] ++
  lit "  " ++ [QUOTE] ++ lit "apple" ++ [QUOTE] ++ lit ": 7," ++ [NEWLINE] ++
  lit "  " ++ [QUOTE] ++ lit "banana" ++ [QUOTE] ++ lit ": -2" ++ [NEWLINE] ++
  lit "}".
Proof. reflexivity. Qed.

Example surrogate_key_stops_save :
  save_data (lit "p") (mkWorld [(lit "a", 1); ([55296%N], 2)] [] []) =
  (Raised UnicodeEncodeError,
   mkWorld [(lit "a", 1); ([55296%N], 2)] []
     [(lit "p",
       lit "{" ++ [NEWLINE] ++ lit "  " ++ [QUOTE] ++ lit "a" ++ [QUOTE] ++
       lit ": 1," ++ [NEWLINE] ++ lit "  ")]).
Proof. reflexivity. Qed.

Example load_missing_file :
  load_data (lit "nowhere.json") empty_world =
  (Raised (FileNotFoundError (lit "nowhere.json")), empty_world).
Proof. reflexivity. Qed.

(** * Further properties of the operations *)

Lemma bind_run {A B : Type} (m : M A) (f : A -> M B) (w w' : world) (a : A) :
  m w = (Returned a, w') -> bind m f w = f a w'.
Proof.
  intros H. unfold bind. now rewrite H.
Qed.

Lemma Forall_keys_set (Q : str -> Prop) (d : dict) (k : str) (v : Z) :
  Forall Q (keys d) -> Q k -> Forall Q (keys (dict_set d k v)).
Proof.
  intros F N. rewrite keys_set. destruct (dict_get d k); [exact F|].
  apply Forall_app. split; [exact F | now constructor].
Qed.

Lemma Forall_keys_removed (Q : str -> Prop) (d : dict) (k : str) (q : Z) :
  Forall Q (keys d) -> Forall Q (keys (removed d k q)).
Proof.
  intros F. unfold removed.
  destruct (dict_get d k) as [c|] eqn:G; [|exact F].
  destruct (c - q <=? 0).
  - destruct (dict_del d k) as [d'|] eqn:D; [|exact F].
    rewrite Forall_forall in *. intros k2 I. apply F.
    exact (keys_del k d d' k2 D I).
  - rewrite keys_set, G. exact F.
Qed.

(** ** [add_item]: what it does with every input *)

Lemma add_item_world (w : world) (item qty : pyval) (logs : option (list str))
    (now : str) :
  exists (l : list str) (d : dict) (rs : list log_record),
    add_item item qty logs now w = (Returned l, mkWorld d (logged w ++ rs) (files w)) /\
    (d = stock_data w \/
     exists name q, as_str item = Some name /\ truthy (strip name) = true /\
                    as_int qty = Some q /\
                    d = dict_set (stock_data w) name
                          (qty_or_zero (stock_data w) name + q)).
Proof.
  unfold add_item.
  destruct (as_str item) as [name|] eqn:Es.
  - destruct (truthy (strip name)) eqn:T; simpl.
    + destruct (as_int qty) as [q|] eqn:Eq.
      * run. eexists _, _, []. rewrite List.app_nil_r. split; [reflexivity|].
        right. exists name, q. auto.
      * run. eexists _, _, [_]. split; [reflexivity | now left].
    + run. eexists _, _, [_]. split; [reflexivity | now left].
  - run. eexists _, _, [_]. split; [reflexivity | now left].
Qed.

(** X1.  When the name is not a [str], or is blank after trimming,
    [add_item] changes neither the dictionary nor the files nor the list of
    audit lines: it logs one warning and returns. *)
Theorem add_item_rejects_name (w : world) (item qty : pyval)
    (logs : option (list str)) (now : str) :
  valid_name item = false ->
  add_item item qty logs now w =
  (Returned (logs_or_new logs),
   mkWorld (stock_data w)
     (logged w ++ [LogWarning "Invalid item name provided" []]) (files w)).
Proof.
  unfold valid_name, add_item. intros H.
  destruct (as_str item) as [name|]; [|reflexivity].
  rewrite H. reflexivity.
Qed.

Lemma add_item_rejects_name_witness :
  let w := mkWorld [(lit "apple", 1)] [] [] in
  add_item (PyStr (lit "   ")) (PyInt 5) (Some [lit "old"]) (lit "t") w =
  (Returned [lit "old"],
   mkWorld [(lit "apple", 1)] [LogWarning "Invalid item name provided" []] []).
Proof.
  intros w.
  exact (add_item_rejects_name w (PyStr (lit "   ")) (PyInt 5)
           (Some [lit "old"]) (lit "t") eq_refl).
Defined.

(** X2.  When the name is accepted and the quantity is not an [int],
    [add_item] changes neither the dictionary nor the files nor the list of
    audit lines: it logs one warning that carries the quantity and returns. *)
Theorem add_item_rejects_qty (w : world) (item qty : pyval)
    (logs : option (list str)) (now : str) :
  valid_name item = true ->
  as_int qty = None ->
  add_item item qty logs now w =
  (Returned (logs_or_new logs),
   mkWorld (stock_data w)
     (logged w ++ [LogWarning "Quantity must be int, got %r" [qty]]) (files w)).
Proof.
  unfold valid_name, add_item. intros H Q.
  destruct (as_str item) as [name|]; [|discriminate].
  rewrite H, Q. reflexivity.
Qed.

Lemma add_item_rejects_qty_witness :
  let w := mkWorld [(lit "x", 1)] [] [] in
  add_item (PyStr (lit "x")) (PyStr (lit "notanint")) None (lit "t") w =
  (Returned [],
   mkWorld [(lit "x", 1)]
     [LogWarning "Quantity must be int, got %r" [PyStr (lit "notanint")]] []).
Proof.
  intros w.
  exact (add_item_rejects_qty w (PyStr (lit "x")) (PyStr (lit "notanint"))
           None (lit "t") eq_refl eq_refl).
Defined.




(** ** [remove_item]: what it does with every input *)

Lemma remove_item_world (w : world) (item : str) (qty : pyval) :
  exists rs : list log_record,
    remove_item item qty w =
    (Returned tt,
     mkWorld
       (match as_int qty with
        | Some q => if q <? 0 then stock_data w
                    else removed (stock_data w) item q
        | None => stock_data w
        end)
       (logged w ++ rs) (files w)) /\
    (List.length rs <= 1)%nat.
Proof.
  unfold remove_item, removed.
  destruct (as_int qty) as [q|].
  - destruct (q <? 0).
    + run. eexists [_]. split; [reflexivity | simpl; lia].
    + run. destruct (dict_get (stock_data w) item) as [c|] eqn:G.
      * exists []. rewrite List.app_nil_r. split; [|simpl; lia].
        destruct (c - q <=? 0); [|reflexivity].
        destruct (dict_del_present _ _ _ G) as [d' ->]. reflexivity.
      * eexists [_]. split; [reflexivity | simpl; lia].
  - run. eexists [_]. split; [reflexivity | simpl; lia].
Qed.

Lemma removed_get_other (d : dict) (item : str) (q : Z) (k : str) :
  k <> item -> dict_get (removed d item q) k = dict_get d k.
Proof.
  intros N. unfold removed.
  destruct (dict_get d item) as [c|] eqn:G; [|reflexivity].
  destruct (c - q <=? 0).
  - destruct (dict_del d item) as [d'|] eqn:D; [|reflexivity].
    exact (dict_get_del_other item d d' k D N).
  - now apply dict_get_set_other.
Qed.

Lemma removed_get_same (d : dict) (item : str) (q : Z) :
  dict_ok d ->
  dict_get (removed d item q) item =
  match dict_get d item with
  | Some c => if c - q <=? 0 then None else Some (c - q)
  | None => None
  end.
Proof.
  intros OK. unfold removed.
  destruct (dict_get d item) as [c|] eqn:G; [|exact G].
  destruct (c - q <=? 0).
  - destruct (dict_del_present _ _ _ G) as [d' D]. rewrite D.
    exact (dict_get_del_same item d d' OK D).
  - apply dict_get_set_same.
Qed.

(** X5.  [remove_item] returns normally on every input (its own
    [ValueError] is caught, and the [del] never misses its key); it never
    touches the files and logs at most one record. *)
Theorem remove_item_never_raises (w : world) (item : str) (qty : pyval) :
  let r := remove_item item qty w in
  result_of r = Returned tt /\
  files (world_of r) = files w /\
  exists rs, logged (world_of r) = logged w ++ rs /\ (List.length rs <= 1)%nat.
Proof.
  intros r. subst r.
  destruct (remove_item_world w item qty) as (rs & -> & L).
  unfold result_of, world_of; simpl. repeat split. now exists rs.
Qed.

(** X6.  [remove_item] never changes the quantity of another item and never
    adds a key, whatever its arguments. *)
Theorem remove_item_frame (w : world) (item : str) (qty : pyval) :
  let w' := world_of (remove_item item qty w) in
  (forall k, k <> item ->
     dict_get (stock_data w') k = dict_get (stock_data w) k) /\
  (forall k, In k (keys (stock_data w')) -> In k (keys (stock_data w))).
Proof.
  intros w'. subst w'.
  destruct (remove_item_world w item qty) as (rs & -> & _).
  unfold world_of; simpl.
  assert (forall q k, In k (keys (removed (stock_data w) item q)) ->
                      In k (keys (stock_data w))) as K.
  { intros q. apply Forall_forall.
    apply Forall_keys_removed. apply Forall_forall. auto. }
  destruct (as_int qty) as [q|]; [destruct (q <? 0)|]; split; auto.
  - intros k N. now apply removed_get_other.
  - apply K.
Qed.

(** X7.  After [remove_item(item, qty)] with a non-negative [int] quantity,
    [item] is either absent or has a strictly positive quantity: a removal
    never leaves a zero or negative entry behind. *)
Theorem remove_item_leaves_positive (w : world) (item : str) (qty : pyval) :
  dict_ok (stock_data w) ->
  is_nonneg_int qty = true ->
  match dict_get (stock_data (world_of (remove_item item qty w))) item with
  | Some v => 0 < v
  | None => True
  end.
Proof.
  unfold is_nonneg_int. intros OK H.
  destruct (remove_item_world w item qty) as (rs & -> & _).
  unfold world_of; simpl.
  destruct (as_int qty) as [q|]; [|discriminate].
  apply Z.leb_le in H.
  assert ((q <? 0) = false) as -> by now apply Z.ltb_ge.
  rewrite (removed_get_same _ item q OK).
  destruct (dict_get (stock_data w) item) as [c|]; [|exact I].
  destruct (c - q <=? 0) eqn:E; [exact I|].
  apply Z.leb_gt in E. exact E.
Qed.

Lemma remove_item_leaves_positive_witness :
  let w := mkWorld [(lit "fig", -4); (lit "apple", 10)] [] [] in
  match dict_get (stock_data (world_of (remove_item (lit "apple") (PyInt 3) w)))
          (lit "apple") with
  | Some v => 0 < v
  | None => True
  end /\
  match dict_get (stock_data (world_of (remove_item (lit "fig") (PyBool true) w)))
          (lit "fig") with
  | Some v => 0 < v
  | None => True
  end.
Proof.
  intros w.
  assert (OK : dict_ok (stock_data w)).
  { repeat constructor; simpl; intuition discriminate. }
  split.
  - exact (remove_item_leaves_positive w (lit "apple") (PyInt 3) OK eq_refl).
  - exact (remove_item_leaves_positive w (lit "fig") (PyBool true) OK eq_refl).
Defined.

Lemma dict_set_same_value (d : dict) (k : str) (v : Z) :
  dict_get d k = Some v -> dict_set d k v = d.
Proof.
  induction d as [|[k' v'] r IH]; simpl; [discriminate|].
  destruct (str_eq_dec k k'); [congruence|].
  intros H. now rewrite IH.
Qed.

Lemma dict_set_set (d : dict) (k : str) (v1 v2 : Z) :
  dict_set (dict_set d k v1) k v2 = dict_set d k v2.
Proof.
  induction d as [|[k' v'] r IH]; simpl.
  - destruct (str_eq_dec k k); congruence.
  - destruct (str_eq_dec k k') as [E|E]; simpl.
    + destruct (str_eq_dec k k'); congruence.
    + destruct (str_eq_dec k k'); congruence.
Qed.

Lemma dict_del_set (d : dict) (k : str) (v : Z) (c : Z) :
  dict_get d k = Some c -> dict_del (dict_set d k v) k = dict_del d k.
Proof.
  induction d as [|[k' v'] r IH]; simpl; [discriminate|].
  destruct (str_eq_dec k k') as [E|E]; simpl.
  - destruct (str_eq_dec k k'); congruence.
  - destruct (str_eq_dec k k'); [congruence|].
    intros H. now rewrite IH.
Qed.

(** X8.  Adding a non-negative quantity to an item that is absent, or present
    with a positive quantity, and removing the same quantity again gives back
    the dictionary as it was, entry for entry and in the same order. *)
Theorem add_then_remove_restores (w : world) (name : str) (qty : pyval) (q : Z)
    (logs : option (list str)) (now : str) :
  truthy (strip name) = true ->
  as_int qty = Some q ->
  0 <= q ->
  match dict_get (stock_data w) name with
  | Some c => 0 < c
  | None => True
  end ->
  stock_data
    (world_of ((add_item (PyStr name) qty logs now ;;; remove_item name qty) w)) =
  stock_data w.
Proof.
  intros Hn Hq Hpos Hc.
  destruct (add_item_valid w name qty q logs now Hn Hq) as [l E].
  rewrite (bind_run _ _ w _ l E).
  destruct (remove_item_world
              (mkWorld (dict_set (stock_data w) name
                          (qty_or_zero (stock_data w) name + q))
                 (logged w) (files w)) name qty) as (rs & -> & _).
  unfold world_of; simpl. rewrite Hq.
  assert ((q <? 0) = false) as -> by now apply Z.ltb_ge.
  unfold removed, qty_or_zero. rewrite dict_get_set_same.
  destruct (dict_get (stock_data w) name) as [c|] eqn:G.
  - assert ((c + q - q <=? 0) = false) as -> by (apply Z.leb_gt; lia).
    rewrite dict_set_set. replace (c + q - q) with c by lia.
    now apply dict_set_same_value.
  - assert ((0 + q - q <=? 0) = true) as -> by (apply Z.leb_le; lia).
    rewrite (dict_set_absent _ _ _ G), (dict_del_last _ _ _ G). reflexivity.
Qed.

Lemma add_then_remove_restores_witness :
  let w := mkWorld [(lit "pear", 4); (lit "apple", 1)] [] [] in
  stock_data
    (world_of ((add_item (PyStr (lit "pear")) (PyInt 6) None (lit "t") ;;;
                remove_item (lit "pear") (PyInt 6)) w)) = stock_data w /\
  stock_data
    (world_of ((add_item (PyStr (lit "kiwi")) (PyInt 0) None (lit "t") ;;;
                remove_item (lit "kiwi") (PyInt 0)) w)) = stock_data w.
Proof.
  intros w. split.
  - exact (add_then_remove_restores w (lit "pear") (PyInt 6) 6 None (lit "t")
             eq_refl eq_refl ltac:(lia) ltac:(simpl; lia)).
  - exact (add_then_remove_restores w (lit "kiwi") (PyInt 0) 0 None (lit "t")
             eq_refl eq_refl ltac:(lia) I).
Defined.

Lemma removed_removed (d : dict) (item : str) (a b : Z) :
  dict_ok d -> 0 <= a -> 0 <= b ->
  removed (removed d item a) item b = removed d item (a + b).
Proof.
  intros OK Ha Hb.
  unfold removed at 1. rewrite (removed_get_same d item a OK).
  unfold removed.
  destruct (dict_get d item) as [c|] eqn:G; [|reflexivity].
  destruct (c - a <=? 0) eqn:E1.
  - apply Z.leb_le in E1.
    assert ((c - (a + b) <=? 0) = true) as -> by (apply Z.leb_le; lia).
    reflexivity.
  - apply Z.leb_gt in E1.
    replace (c - a - b) with (c - (a + b)) by lia.
    destruct (c - (a + b) <=? 0).
    + rewrite (dict_del_set d item (c - a) c G).
      destruct (dict_del_present _ _ _ G) as [d' ->]. reflexivity.
    + apply dict_set_set.
Qed.

(** X9.  Removing [a] and then [b] from an item leaves the same dictionary
    as removing [a + b] at once (for non-negative [int] quantities). *)
Theorem remove_twice_is_remove_sum (w : world) (item : str) (qa qb : pyval)
    (a b : Z) :
  dict_ok (stock_data w) ->
  as_int qa = Some a -> as_int qb = Some b ->
  0 <= a -> 0 <= b ->
  stock_data (world_of ((remove_item item qa ;;; remove_item item qb) w)) =
  stock_data (world_of (remove_item item (PyInt (a + b)) w)).
Proof.
  intros OK Ea Eb Ha Hb.
  destruct (remove_item_world w item qa) as (rs1 & E1 & _).
  rewrite (bind_run _ _ w _ tt E1). rewrite Ea.
  assert ((a <? 0) = false) as -> by now apply Z.ltb_ge.
  destruct (remove_item_world
              (mkWorld (removed (stock_data w) item a) (logged w ++ rs1)
                 (files w)) item qb) as (rs2 & -> & _).
  destruct (remove_item_world w item (PyInt (a + b))) as (rs3 & -> & _).
  unfold world_of; simpl. rewrite Eb.
  assert ((b <? 0) = false) as -> by now apply Z.ltb_ge.
  assert ((a + b <? 0) = false) as -> by (apply Z.ltb_ge; lia).
  now apply removed_removed.
Qed.

Lemma remove_twice_is_remove_sum_witness :
  let w := mkWorld [(lit "pear", 4); (lit "apple", 10)] [] [] in
  stock_data (world_of ((remove_item (lit "apple") (PyInt 3) ;;;
                         remove_item (lit "apple") (PyInt 4)) w)) =
  stock_data (world_of (remove_item (lit "apple") (PyInt (3 + 4)) w)) /\
  stock_data (world_of ((remove_item (lit "pear") (PyInt 3) ;;;
                         remove_item (lit "pear") (PyInt 4)) w)) =
  stock_data (world_of (remove_item (lit "pear") (PyInt (3 + 4)) w)).
Proof.
  intros w.
  assert (OK : dict_ok (stock_data w)).
  { repeat constructor; simpl; intuition discriminate. }
  split.
  - exact (remove_twice_is_remove_sum w (lit "apple") (PyInt 3) (PyInt 4) 3 4
             OK eq_refl eq_refl ltac:(lia) ltac:(lia)).
  - exact (remove_twice_is_remove_sum w (lit "pear") (PyInt 3) (PyInt 4) 3 4
             OK eq_refl eq_refl ltac:(lia) ltac:(lia)).
Defined.

(** ** [check_low_items] and [get_qty] *)

Lemma dict_get_In (d : dict) (k : str) (v : Z) :
  dict_get d k = Some v -> In (k, v) d.
Proof.
  induction d as [|[k' v'] r IH]; simpl; [discriminate|].
  destruct (str_eq_dec k k') as [E|E].
  - intros [= ->]. left. congruence.
  - intros H. right. now apply IH.
Qed.

Lemma In_dict_get (d : dict) (k : str) (v : Z) :
  dict_ok d -> In (k, v) d -> dict_get d k = Some v.
Proof.
  unfold dict_ok. induction d as [|[k' v'] r IH]; simpl; [tauto|].
  intros ND. inversion ND as [|? ? NI ND']; subst.
  intros [[= -> ->]|H].
  - destruct (str_eq_dec k k); congruence.
  - destruct (str_eq_dec k k') as [E|E]; [|now apply IH].
    subst k'. exfalso. apply NI.
    change k with (fst (k, v)). now apply in_map.
Qed.

Lemma check_low_items_run (w : world) (threshold : pyval) (t : Z) :
  as_int threshold = Some t -> 0 <= t ->
  check_low_items threshold w = (Returned (low_entries t (stock_data w)), w).
Proof.
  intros Ht Hpos. unfold check_low_items. rewrite Ht.
  assert ((t <? 0) = false) as -> by now apply Z.ltb_ge.
  run. now rewrite low_loop.
Qed.

(** X10.  For a valid threshold, an item is in the list [check_low_items]
    returns exactly when [get_qty] returns a quantity for it and that quantity
    is below the threshold. *)
Theorem low_items_iff_get_qty (w : world) (threshold : pyval) (t : Z)
    (name : str) :
  dict_ok (stock_data w) ->
  as_int threshold = Some t ->
  0 <= t ->
  exists l,
    result_of (check_low_items threshold w) = Returned l /\
    (In name l <->
     exists v, result_of (get_qty name w) = Returned v /\ v < t).
Proof.
  intros OK Ht Hpos. rewrite (check_low_items_run w threshold t Ht Hpos).
  eexists. split; [reflexivity|].
  rewrite low_entries_In. unfold get_qty. run. split.
  - intros [v [I L]]. exists v. now rewrite (In_dict_get _ _ _ OK I).
  - intros [v [G L]]. exists v. split; [|exact L].
    apply dict_get_In.
    destruct (dict_get (stock_data w) name); simpl in G; congruence.
Qed.

Lemma low_items_iff_get_qty_witness :
  let w := mkWorld [(lit "apple", 10); (lit "banana", 2)] [] [] in
  exists l,
    result_of (check_low_items (PyInt 5) w) = Returned l /\
    (In (lit "banana") l <->
     exists v, result_of (get_qty (lit "banana") w) = Returned v /\ v < 5).
Proof.
  intros w.
  assert (OK : dict_ok (stock_data w)).
  { repeat constructor; simpl; intuition discriminate. }
  exact (low_items_iff_get_qty w (PyInt 5) 5 (lit "banana") OK eq_refl
           ltac:(lia)).
Defined.

Lemma low_entries_keys (t : Z) (d : dict) (k : str) :
  In k (low_entries t d) -> In k (keys d).
Proof.
  rewrite low_entries_In. intros [v [I _]].
  change k with (fst (k, v)). now apply in_map.
Qed.

Lemma low_entries_NoDup (t : Z) (d : dict) :
  dict_ok d -> NoDup (low_entries t d).
Proof.
  unfold dict_ok. induction d as [|[k v] r IH]; simpl; [constructor|].
  intros ND. inversion ND as [|? ? NI ND']; subst.
  unfold low_entries in *. simpl. destruct (v <? t); simpl; [|auto].
  constructor; [|auto].
  intros I. apply NI. now apply (low_entries_keys t).
Qed.

(** X11.  The list [check_low_items] returns names only keys of the
    dictionary, names none twice, and grows with the threshold: an item low
    at one threshold is low at every larger one. *)
Theorem low_items_monotone (w : world) (th1 th2 : pyval) (t1 t2 : Z) :
  dict_ok (stock_data w) ->
  as_int th1 = Some t1 -> as_int th2 = Some t2 ->
  0 <= t1 -> t1 <= t2 ->
  exists l1 l2,
    result_of (check_low_items th1 w) = Returned l1 /\
    result_of (check_low_items th2 w) = Returned l2 /\
    incl l1 l2 /\ NoDup l1 /\ incl l1 (keys (stock_data w)).
Proof.
  intros OK E1 E2 H1 H12.
  rewrite (check_low_items_run w th1 t1 E1 H1).
  rewrite (check_low_items_run w th2 t2 E2 ltac:(lia)).
  eexists _, _. split; [reflexivity|]. split; [reflexivity|].
  repeat split.
  - intros k. rewrite !low_entries_In. intros [v [I L]].
    exists v. split; [exact I | lia].
  - now apply low_entries_NoDup.
  - intros k. apply low_entries_keys.
Qed.

Lemma low_items_monotone_witness :
  let w := mkWorld [(lit "kiwi", 1); (lit "apple", 10); (lit "fig", -4)] [] [] in
  exists l1 l2,
    result_of (check_low_items (PyInt 0) w) = Returned l1 /\
    result_of (check_low_items (PyInt 5) w) = Returned l2 /\
    incl l1 l2 /\ NoDup l1 /\ incl l1 (keys (stock_data w)).
Proof.
  intros w.
  assert (OK : dict_ok (stock_data w)).
  { repeat constructor; simpl; intuition discriminate. }
  exact (low_items_monotone w (PyInt 0) (PyInt 5) 0 5 OK eq_refl eq_refl
           ltac:(lia) ltac:(lia)).
Defined.

(** ** [load_data] and [save_data] by themselves *)

(** X12.  [load_data] never changes the files or the log; when there is no
    file at the path it raises [FileNotFoundError] and leaves the dictionary
    as it was (no empty default); and when it returns, the dictionary it has
    installed has no key twice. *)
Theorem load_data_frame (w : world) (path : str) :
  let r := load_data path w in
  files (world_of r) = files w /\
  logged (world_of r) = logged w /\
  (file_read (files w) path = None ->
   r = (Raised (FileNotFoundError path), w)) /\
  (result_of r = Returned tt -> dict_ok (stock_data (world_of r))).
Proof.
  intros r. subst r. unfold load_data.
  destruct (file_read (files w) path) as [t|].
  - destruct (json_loads t) as [d|] eqn:J; unfold world_of, result_of; simpl;
      repeat split; try discriminate.
    intros _. exact (json_loads_dict_ok t d J).
  - unfold world_of, result_of; simpl. repeat split. discriminate.
Qed.

Lemma file_read_other (fs : list (str * text)) (path p : str) (t : text) :
  p <> path -> file_read ((path, t) :: fs) p = file_read fs p.
Proof.
  intros N. simpl. destruct (str_eq_dec p path); congruence.
Qed.


(** X14.  Two dictionaries that [save_data] writes out to the same text are
    the same dictionary: the file determines keys, values and order. *)
Theorem saved_text_determines_store (w1 w2 : world) (path : str) :
  dict_ok (stock_data w1) ->
  dict_ok (stock_data w2) ->
  result_of (save_data path w1) = Returned tt ->
  result_of (save_data path w2) = Returned tt ->
  file_read (files (world_of (save_data path w1))) path =
  file_read (files (world_of (save_data path w2))) path ->
  stock_data w1 = stock_data w2.
Proof.
  intros OK1 OK2. rewrite !save_data_run.
  destruct (keys_encodable (stock_data w1)); [|discriminate].
  destruct (keys_encodable (stock_data w2)); [|discriminate].
  unfold world_of, result_of. cbn [fst snd files]. intros _ _.
  rewrite !file_read_head. intros [= E].
  apply (f_equal json_loads) in E.
  rewrite !json_loads_text in E by assumption. congruence.
Qed.

Lemma saved_text_determines_store_witness :
  let w1 := mkWorld [(lit "apple", 7)] [] [] in
  let w2 := mkWorld [(lit "apple", 7)] [LogWarning "x" []] [(lit "f", [])] in
  stock_data w1 = stock_data w2.
Proof.
  intros w1 w2.
  assert (OK1 : dict_ok (stock_data w1)).
  { repeat constructor; simpl; intuition. }
  assert (OK2 : dict_ok (stock_data w2)).
  { repeat constructor; simpl; intuition. }
  exact (saved_text_determines_store w1 w2 (lit "f") OK1 OK2 eq_refl eq_refl
           eq_refl).
Defined.

(** ** What every state of the store satisfies *)

Lemma run_op_dict_ok (w : world) (o : op) :
  dict_ok (stock_data w) -> dict_ok (stock_data (run_op w o)).
Proof.
  intros OK.
  destruct (operations_keep_dict_ok w OK) as (A & R & L & S).
  destruct o; simpl; auto.
  - unfold get_qty. run. now destruct (dict_get (stock_data w) item).
  - unfold check_low_items.
    destruct (as_int threshold) as [t|]; [destruct (t <? 0)|]; exact OK.
Qed.


Lemma keys_encodable_set (d : dict) (k : str) (v : Z) :
  keys_encodable d = true -> encodable_key k ->
  keys_encodable (dict_set d k v) = true.
Proof.
  rewrite !keys_encodable_Forall. apply Forall_keys_set.
Qed.

Lemma keys_encodable_removed (d : dict) (k : str) (q : Z) :
  keys_encodable d = true -> keys_encodable (removed d k q) = true.
Proof.
  rewrite !keys_encodable_Forall. apply Forall_keys_removed.
Qed.



(** * Standard output: [print_data] and [main] *)

Section ConsoleProperties.

Variable stdout_ok : char -> bool.
Variable repr_str : str -> text.

Lemma only_writes_pret (A : Type) (a : A) : only_writes (pret a).
Proof.
  intros p. simpl. repeat split; [|discriminate].
  exists []. now rewrite List.app_nil_r.
Qed.

Lemma only_writes_write (t : text) : only_writes (stdout_write stdout_ok t).
Proof.
  intros p. unfold stdout_write.
  destruct (forallb stdout_ok t); simpl; repeat split;
    try discriminate; try congruence.
  - now exists t.
  - exists []. now rewrite List.app_nil_r.
Qed.

Lemma only_writes_pbind (A B : Type) (m : P A) (f : A -> P B) :
  only_writes m -> (forall a, only_writes (f a)) -> only_writes (pbind m f).
Proof.
  intros Hm Hf p. unfold pbind.
  destruct (Hm p) as (W & [t T] & E).
  destruct (m p) as [[a|e] p'] eqn:R; simpl in *.
  - destruct (Hf a p') as (W' & [t' T'] & E').
    repeat split; [congruence | | exact E'].
    exists (t ++ t'). rewrite T', T. now rewrite List.app_assoc.
  - repeat split; [exact W | now exists t |].
    intros e0 [= <-]. now apply E.
Qed.

Lemma only_writes_print (args : list text) : only_writes (print stdout_ok args).
Proof.
  unfold print. generalize true.
  induction args as [|a r IH]; intros first; cbn [print_args].
  - apply only_writes_write.
  - apply only_writes_pbind.
    + destruct first; [apply only_writes_pret | apply only_writes_write].
    + intros _. apply only_writes_pbind; [apply only_writes_write|].
      intros _. apply IH.
Qed.

Lemma only_writes_print_items (d : dict) : only_writes (print_items stdout_ok d).
Proof.
  induction d as [|[name qty] r IH]; cbn [print_items].
  - apply only_writes_pret.
  - apply only_writes_pbind; [apply only_writes_print | intros _; exact IH].
Qed.


(** Every encoding of standard output takes ASCII. *)
Hypothesis ascii_ok : forall c, (c < 128)%N -> stdout_ok c = true.

Lemma ascii_printable (t : text) :
  Forall (fun c => (c < 128)%N) t -> printable stdout_ok t.
Proof.
  unfold printable. intros F. apply forallb_forall.
  rewrite Forall_forall in F. intros c I. apply ascii_ok. now apply F.
Qed.

Lemma int_repr_printable (n : Z) : printable stdout_ok (int_repr n).
Proof.
  apply ascii_printable.
  assert (forall u, Forall (fun c => (c < 128)%N) (uint_text u)) as U.
  { induction u; simpl; constructor; auto; lia. }
  unfold int_repr. destruct (Z.to_int n); [apply U|].
  constructor; [lia | apply U].
Qed.

Lemma printable_app (a b : text) :
  printable stdout_ok a -> printable stdout_ok b -> printable stdout_ok (a ++ b).
Proof.
  unfold printable. intros Ha Hb. now rewrite forallb_app, Ha, Hb.
Qed.

Lemma stdout_write_ok (t : text) (p : process) :
  printable stdout_ok t ->
  stdout_write stdout_ok t p =
  (Returned tt, mkProcess (proc_world p) (proc_out p ++ t)).
Proof.
  unfold printable, stdout_write. now intros ->.
Qed.

Lemma print_args_ok (args : list text) :
  forall (first : bool) (p : process),
    Forall (printable stdout_ok) args ->
    print_args stdout_ok first args p =
    (Returned tt,
     mkProcess (proc_world p) (proc_out p ++ joined first args ++ [NEWLINE])).
Proof.
  induction args as [|a r IH]; intros first p F; cbn [print_args joined].
  - apply stdout_write_ok. apply ascii_printable.
    repeat constructor; unfold NEWLINE; lia.
  - inversion F as [|? ? Ha Hr]; subst. unfold pbind.
    destruct first.
    + cbn [pret]. rewrite (stdout_write_ok a p Ha).
      rewrite (IH false _ Hr). cbn [proc_world proc_out app].
      now rewrite <- !List.app_assoc.
    + rewrite (stdout_write_ok (lit " ") p)
        by (apply ascii_printable; repeat constructor; simpl; lia).
      rewrite (stdout_write_ok a _ Ha).
      rewrite (IH false _ Hr). cbn [proc_world proc_out].
      now rewrite <- !List.app_assoc.
Qed.

Lemma print_args_returns (args : list text) :
  forall (first : bool) (p : process),
    fst (print_args stdout_ok first args p) = Returned tt ->
    Forall (printable stdout_ok) args.
Proof.
  induction args as [|a r IH]; intros first p; [constructor|].
  cbn [print_args]. unfold pbind.
  assert (forall q, fst (match stdout_write stdout_ok a q with
                         | (Returned _, p') => print_args stdout_ok false r p'
                         | (Raised e, p') => (Raised e, p')
                         end) = Returned tt ->
                    Forall (printable stdout_ok) (a :: r)) as G.
  { intros q. unfold stdout_write.
    destruct (forallb stdout_ok a) eqn:E; [|discriminate].
    intros H. constructor; [exact E | exact (IH _ _ H)]. }
  destruct first.
  - cbn [pret]. apply G.
  - destruct (stdout_write stdout_ok (lit " ") p) as [[[]|e] p']; [apply G|].
    discriminate.
Qed.

Lemma report_line_joined (name : str) (qty : Z) :
  joined true [name; lit "->"; int_repr qty] ++ [NEWLINE] =
  report_line (name, qty).
Proof.
  unfold report_line. cbn [joined fst snd app].
  rewrite List.app_nil_r, <- !List.app_assoc. reflexivity.
Qed.

Lemma print_items_ok (d : dict) :
  forall p : process,
    Forall (printable stdout_ok) (keys d) ->
    print_items stdout_ok d p =
    (Returned tt,
     mkProcess (proc_world p) (proc_out p ++ flat_map report_line d)).
Proof.
  induction d as [|[name qty] r IH]; intros p F; cbn [print_items flat_map].
  - cbn [pret]. destruct p. simpl. now rewrite List.app_nil_r.
  - simpl in F. inversion F as [|? ? Hn Hr]; subst.
    unfold pbind, print. rewrite print_args_ok.
    + rewrite (IH _ Hr). cbn [proc_world proc_out].
      now rewrite report_line_joined, <- List.app_assoc.
    + repeat constructor; [exact Hn | | apply int_repr_printable].
      apply ascii_printable. repeat constructor; simpl; lia.
Qed.

Lemma print_items_returns (d : dict) :
  forall p : process,
    fst (print_items stdout_ok d p) = Returned tt ->
    Forall (printable stdout_ok) (keys d).
Proof.
  induction d as [|[name qty] r IH]; intros p; [constructor|].
  cbn [print_items]. unfold pbind, print.
  destruct (print_args stdout_ok true [name; lit "->"; int_repr qty] p)
    as [[[]|e] p'] eqn:E; [|discriminate].
  intros H. simpl. constructor; [|exact (IH _ H)].
  pose proof (print_args_returns [name; lit "->"; int_repr qty] true p) as G.
  rewrite E in G.
  specialize (G eq_refl). now inversion G.
Qed.

Lemma header_printable : printable stdout_ok (lit "Items Report").
Proof.
  apply ascii_printable. repeat constructor; simpl; lia.
Qed.

Lemma print_header (q : process) :
  print stdout_ok [lit "Items Report"] q =
  (Returned tt,
   mkProcess (proc_world q) (proc_out q ++ lit "Items Report" ++ [NEWLINE])).
Proof.
  unfold print. rewrite print_args_ok.
  - cbn [joined]. now rewrite List.app_nil_r.
  - repeat constructor. apply header_printable.
Qed.

Lemma print_data_ok (p : process) :
  Forall (printable stdout_ok) (keys (stock_data (proc_world p))) ->
  print_data stdout_ok p =
  (Returned tt,
   mkProcess (proc_world p)
     (proc_out p ++ lit "Items Report" ++ [NEWLINE] ++
      flat_map report_line (stock_data (proc_world p)))).
Proof.
  intros F. unfold print_data, pbind. rewrite print_header.
  unfold lift, get_stock. cbn [proc_world proc_out].
  rewrite print_items_ok by exact F.
  cbn [proc_world proc_out]. now rewrite <- !List.app_assoc.
Qed.


End ConsoleProperties.


(** ** [main] *)

Lemma dict_ok_removed (d : dict) (k : str) (q : Z) :
  dict_ok d -> dict_ok (removed d k q).
Proof.
  intros OK. unfold removed.
  destruct (dict_get d k) as [c|]; [|exact OK].
  destruct (c - q <=? 0).
  - destruct (dict_del d k) as [d'|] eqn:D; [|exact OK].
    exact (dict_ok_del k d d' OK D).
  - now apply dict_ok_set.
Qed.

Lemma add_item_int (w : world) (name : str) (q : Z) (now : str) :
  truthy (strip name) = true ->
  exists l,
    add_item (PyStr name) (PyInt q) None now w =
    (Returned l, mkWorld (added (stock_data w) name q) (logged w) (files w)).
Proof.
  intros H. exact (add_item_valid w name (PyInt q) q None now H eq_refl).
Qed.

Lemma remove_item_int (w : world) (item : str) (q : Z) :
  0 <= q ->
  exists rs,
    remove_item item (PyInt q) w =
    (Returned tt,
     mkWorld (removed (stock_data w) item q) (logged w ++ rs) (files w)).
Proof.
  intros H. destruct (remove_item_world w item (PyInt q)) as (rs & E & _).
  exists rs. rewrite E. cbn [as_int].
  assert ((q <? 0) = false) as -> by now apply Z.ltb_ge.
  reflexivity.
Qed.

Lemma pbind_lift (A B : Type) (m : M A) (f : A -> P B) (w : world) (out : text)
    (a : A) (w' : world) :
  m w = (Returned a, w') ->
  pbind (lift m) f (mkProcess w out) = f a (mkProcess w' out).
Proof.
  intros E. unfold pbind, lift. cbn [proc_world proc_out]. now rewrite E.
Qed.

Section MainProperties.

Variable stdout_ok : char -> bool.
Variable repr_str : str -> text.

(** Every encoding of standard output takes ASCII, and [repr] writes a
    character of the string or an ASCII escape. *)
Hypothesis ascii_ok : forall c, (c < 128)%N -> stdout_ok c = true.
Hypothesis repr_ok :
  forall s, printable stdout_ok s -> printable stdout_ok (repr_str s).

Lemma pbind_print (B : Type) (args : list text) (f : unit -> P B)
    (w : world) (out : text) :
  Forall (printable stdout_ok) args ->
  pbind (print stdout_ok args) f (mkProcess w out) =
  f tt (mkProcess w (out ++ joined true args ++ [NEWLINE])).
Proof.
  intros F. unfold pbind, print.
  now rewrite (print_args_ok stdout_ok ascii_ok args true _ F).
Qed.

Lemma str_of_list_printable (l : list str) :
  Forall (printable stdout_ok) l -> printable stdout_ok (str_of_list repr_str l).
Proof.
  intros F. unfold str_of_list.
  assert (forall t, Forall (fun c => (c < 128)%N) t -> printable stdout_ok t)
    as Asc by (apply ascii_printable; exact ascii_ok).
  apply printable_app; [apply Asc; repeat constructor; simpl; lia|].
  apply printable_app; [|apply Asc; repeat constructor; simpl; lia].
  induction F as [|s r Hs Hr IH]; [reflexivity|].
  cbn [join_reprs]. destruct r as [|s' r'].
  - now apply repr_ok.
  - apply printable_app; [now apply repr_ok|].
    apply printable_app; [apply Asc; repeat constructor; simpl; lia | exact IH].
Qed.

Lemma apple_step (B : Type) (f : unit -> P B) (w : world) (out : text) :
  pbind
    (ptry
       (pbind (lift (get_qty (lit "apple"))) (fun q =>
        print stdout_ok [lit "Apple stock:"; int_repr q]))
       handles_KeyError
       (fun _ => print stdout_ok [lit "Apple not in stock"]))
    f (mkProcess w out) =
  f tt
    (mkProcess w
       (out ++
        match dict_get (stock_data w) (lit "apple") with
        | Some q => lit "Apple stock: " ++ int_repr q
        | None => lit "Apple not in stock"
        end ++ [NEWLINE])).
Proof.
  assert (forall t, Forall (fun c => (c < 128)%N) t -> printable stdout_ok t)
    as Asc by (apply ascii_printable; exact ascii_ok).
  unfold pbind at 1. unfold ptry.
  unfold pbind, lift, get_qty, bind, get_stock. cbn [proc_world proc_out].
  destruct (dict_get (stock_data w) (lit "apple")) as [q|]; unfold ret, raise.
  - unfold print. rewrite (print_args_ok stdout_ok ascii_ok).
    + cbn [proc_world proc_out joined app].
      now rewrite List.app_nil_r, <- !List.app_assoc.
    + repeat constructor;
        [apply Asc; repeat constructor; simpl; lia
        | apply int_repr_printable; exact ascii_ok].
  - cbn [handles_KeyError]. unfold print.
    rewrite (print_args_ok stdout_ok ascii_ok).
    + cbn [proc_world proc_out joined app].
      now rewrite List.app_nil_r.
    + repeat constructor. apply Asc. repeat constructor; simpl; lia.
Qed.

Lemma main_store_keys (Q : str -> Prop) (d : dict) :
  Q (lit "apple") -> Q (lit "banana") -> Q (lit "not-a-name") ->
  Forall Q (keys d) -> Forall Q (keys (main_store d)).
Proof.
  intros Qa Qb Qn F. unfold main_store, added.
  repeat first [apply Forall_keys_removed | apply Forall_keys_set];
    assumption.
Qed.

Lemma main_store_ok (d : dict) : dict_ok d -> dict_ok (main_store d).
Proof.
  intros OK. unfold main_store, added.
  repeat first [apply dict_ok_removed | apply dict_ok_set]. exact OK.
Qed.


End MainProperties.

